(** * localtuya: the device session of [custom_components/localtuya/common.py]

    A shallow embedding of class [TuyaDevice] (the cache wrapper around a
    pytuya link) together with the part of its environment that the class
    talks to: the asyncio event loop (tasks made by [asyncio.ensure_future],
    callbacks queued by [loop.call_soon]), the Home Assistant dispatcher
    ([async_dispatcher_send]), the pytuya link objects and the logger.

    The Python object is a record; every method is a function that takes the
    world and returns the new one.  The coroutine [_make_connection] is cut at
    its three [await]s into the pieces of code that run without suspension;
    the event loop resumes a task with the result of what the task awaits. *)

From stdpp Require Import pretty gmap strings list fin_maps numbers.

Open Scope Z_scope.

(** ** Data *)

(** A datapoint value as the device reports it (an untyped scalar). *)
Inductive value :=
| VStr (s : string)
| VInt (z : Z)
| VBool (b : bool).

#[global] Instance value_eq_dec : EqDecision value.
Proof. solve_decision. Defined.

(** A status mapping: datapoint id (a string such as "1") to value. *)
Abbreviation dict := (gmap string value).

(** A link is the object returned by [pytuya.connect]; a task is the object
    returned by [asyncio.ensure_future].  Both are known by identity only. *)
Definition link := nat.
Definition task_id := nat.
Bind Scope nat_scope with link task_id.

(** The entries of [config_entry] that [TuyaDevice] reads. *)
Record ConfigEntry := {
  CONF_HOST : string;
  CONF_DEVICE_ID : string;
  CONF_FRIENDLY_NAME : string;
  CONF_PASSIVE_DEVICE : bool;
  CONF_ENTITIES : list string          (* the CONF_ID of every entity *)
}.

(** The attributes set by [TuyaDevice.__init__] (without [_hass], which is the
    rest of the world below). *)
Record TuyaDevice := {
  _config_entry : ConfigEntry;
  _interface : option link;
  _status : dict;
  _dps_to_request : gset string;
  _is_closing : bool;
  _connect_task : option task_id;
  _connection_attempts : Z
}.

(** Where a task running [_make_connection] stands. *)
Inductive stage :=
| Created                     (* made by ensure_future, body not entered   *)
| AwaitSleep (backoff : Z)    (* await asyncio.sleep(backoff)              *)
| AwaitOpen                   (* await pytuya.connect(...)                 *)
| AwaitStatus                 (* await self._interface.status()            *)
| Finished                    (* the coroutine returned                    *)
| Cancelled.                  (* CancelledError left the coroutine         *)

#[global] Instance stage_eq_dec : EqDecision stage.
Proof. solve_decision. Defined.

(** An asyncio task: its stage, and the flag set by [Task.cancel()] that makes
    the next step throw [CancelledError] into the coroutine. *)
Record task := { t_stage : stage; t_must_cancel : bool }.

#[global] Instance task_eq_dec : EqDecision task.
Proof. solve_decision. Defined.

(** The only callback the class hands to [loop.call_soon]. *)
Inductive callback := CallConnect.

Inductive link_call :=
| PytuyaConnect                                   (* pytuya.connect(...)        *)
| LinkAddDps (l : link) (dps : gset string)       (* l.add_dps_to_request(dps)  *)
| LinkStatus (l : link)                           (* l.status()                 *)
| LinkSetDp (l : link) (state : value) (dp : Z)   (* l.set_dp(state, dp)        *)
| LinkClose (l : link).                           (* l.close()                  *)

Inductive log_record :=
| DebugConnecting                       (* connect: "Connecting to %s (%s)"            *)
| DebugAlreadyConnecting (closing : bool) (t : option task_id) (i : option link)
| DebugWaiting (backoff : Z)            (* "Waiting %d seconds before connecting"      *)
| DebugConnectingTo                     (* _make_connection: "Connecting to %s"        *)
| DebugRetrieving                       (* "Retrieving initial state"                  *)
| ExceptionConnectFailed                (* "Connect to ... failed"                     *)
| ExceptionSetDp (dp : Z) (state : value)   (* "Failed to set DP %d to %d"             *)
| ErrorNotConnected                     (* "Not connected to device %s"                *)
| DebugDisconnected                     (* "Disconnected from %s: %s"                  *)
| DebugNoReconnect.                     (* "No automatic re-connect due to passive device" *)

#[global] Instance log_record_eq_dec : EqDecision log_record.
Proof. solve_decision. Defined.

(** The device and what it acts on.  Lists grow at the end: the last element
    is the most recent. *)
Record World := {
  dev : TuyaDevice;
  tasks : list task;                 (* every task made so far, by identity     *)
  ready : list callback;             (* loop.call_soon queue, oldest first      *)
  signals : list (option dict);      (* payloads given to async_dispatcher_send *)
  calls : list link_call;            (* calls made on pytuya and on links       *)
  log : list log_record
}.

(** *** Attribute assignment *)

Definition set_interface (i : option link) (d : TuyaDevice) : TuyaDevice :=
  {| _config_entry := _config_entry d; _interface := i; _status := _status d;
     _dps_to_request := _dps_to_request d; _is_closing := _is_closing d;
     _connect_task := _connect_task d;
     _connection_attempts := _connection_attempts d |}.

Definition set_status (s : dict) (d : TuyaDevice) : TuyaDevice :=
  {| _config_entry := _config_entry d; _interface := _interface d; _status := s;
     _dps_to_request := _dps_to_request d; _is_closing := _is_closing d;
     _connect_task := _connect_task d;
     _connection_attempts := _connection_attempts d |}.

Definition set_is_closing (b : bool) (d : TuyaDevice) : TuyaDevice :=
  {| _config_entry := _config_entry d; _interface := _interface d;
     _status := _status d; _dps_to_request := _dps_to_request d;
     _is_closing := b; _connect_task := _connect_task d;
     _connection_attempts := _connection_attempts d |}.

Definition set_connect_task (t : option task_id) (d : TuyaDevice) : TuyaDevice :=
  {| _config_entry := _config_entry d; _interface := _interface d;
     _status := _status d; _dps_to_request := _dps_to_request d;
     _is_closing := _is_closing d; _connect_task := t;
     _connection_attempts := _connection_attempts d |}.

Definition set_connection_attempts (n : Z) (d : TuyaDevice) : TuyaDevice :=
  {| _config_entry := _config_entry d; _interface := _interface d;
     _status := _status d; _dps_to_request := _dps_to_request d;
     _is_closing := _is_closing d; _connect_task := _connect_task d;
     _connection_attempts := n |}.

Definition on_dev (f : TuyaDevice → TuyaDevice) (w : World) : World :=
  {| dev := f (dev w); tasks := tasks w; ready := ready w;
     signals := signals w; calls := calls w; log := log w |}.

Definition set_tasks (ts : list task) (w : World) : World :=
  {| dev := dev w; tasks := ts; ready := ready w;
     signals := signals w; calls := calls w; log := log w |}.

Definition set_ready (q : list callback) (w : World) : World :=
  {| dev := dev w; tasks := tasks w; ready := q;
     signals := signals w; calls := calls w; log := log w |}.

(** *** The environment's operations *)

(** [_LOGGER.debug/error/exception]. *)
Definition logger (r : log_record) (w : World) : World :=
  {| dev := dev w; tasks := tasks w; ready := ready w;
     signals := signals w; calls := calls w; log := log w ++ [r] |}.

(** A call on pytuya or on a link object. *)
Definition call (c : link_call) (w : World) : World :=
  {| dev := dev w; tasks := tasks w; ready := ready w;
     signals := signals w; calls := calls w ++ [c]; log := log w |}.

(** [async_dispatcher_send(self._hass, signal, payload)]: the payload is either
    [None] or the device's [_status] dictionary (the object itself, which the
    class never rebinds and only ever updates in place).  The payload is
    recorded with the content the dictionary has when it is sent. *)
Definition async_dispatcher_send (payload : option dict) (w : World) : World :=
  {| dev := dev w; tasks := tasks w; ready := ready w;
     signals := signals w ++ [payload]; calls := calls w; log := log w |}.

(** [self._hass.loop.call_soon(cb)]. *)
Definition call_soon (cb : callback) (w : World) : World :=
  set_ready (ready w ++ [cb]) w.

(** [asyncio.ensure_future(coro)]: a new task, not yet started. *)
Definition ensure_future (w : World) : task_id * World :=
  (length (tasks w),
   set_tasks (tasks w ++ [{| t_stage := Created; t_must_cancel := false |}]) w).

(** A task is in flight until its coroutine has returned or was cancelled. *)
Definition task_done (t : task) : bool :=
  match t_stage t with
  | Finished | Cancelled => true
  | _ => false
  end.

(** [Task.cancel()]: nothing on a task that is done; otherwise the next step
    of the task throws [CancelledError] into the coroutine. *)
Definition cancel (tid : task_id) (w : World) : World :=
  match tasks w !! tid with
  | Some t =>
      if task_done t then w
      else set_tasks (<[tid := {| t_stage := t_stage t; t_must_cancel := true |}]> (tasks w)) w
  | None => w
  end.

(** Truth value of an attribute holding [None] or an object (a link and a
    task define neither [__bool__] nor [__len__], so they are true). *)
Definition truthy {A} (o : option A) : bool :=
  match o with Some _ => true | None => false end.

(** ** The class *)

Definition BACKOFF_TIME_UPPER_LIMIT : Z := 300.

(** [random.randrange(stop)]: the random source is an integer [seed] supplied
    from outside; for [0 < stop] the result ranges over all of [0, stop). *)
Definition randrange (seed stop : Z) : Z := seed `mod` stop.

(** [TuyaDevice.__init__]. *)
Definition __init__ (config_entry : ConfigEntry) : TuyaDevice :=
  {| _config_entry := config_entry;
     _interface := None;
     _status := ∅;
     _dps_to_request := list_to_set (CONF_ENTITIES config_entry);
     _is_closing := false;
     _connect_task := None;
     _connection_attempts := 0 |}.

(** A new device in a loop where nothing has happened yet. *)
Definition boot (config_entry : ConfigEntry) : World :=
  {| dev := __init__ config_entry; tasks := []; ready := [];
     signals := []; calls := []; log := [] |}.

(** [TuyaDevice.connected]. *)
Definition connected (d : TuyaDevice) : bool :=
  truthy (_interface d) && negb (truthy (_connect_task d)).

(** [TuyaDevice.connect]. *)
Definition connect (w : World) : World :=
  let d := dev w in
  if negb (_is_closing d) && negb (truthy (_connect_task d))
     && negb (truthy (_interface d))
  then
    let w := logger DebugConnecting w in
    let '(t, w) := ensure_future w in
    on_dev (set_connect_task (Some t)) w
  else
    logger (DebugAlreadyConnecting (_is_closing d) (_connect_task d) (_interface d)) w.

(** [TuyaDevice.status_updated]. *)
Definition status_updated (status : dict) (w : World) : World :=
  let w := on_dev (fun d => set_status (status ∪ _status d) d) w in
  async_dispatcher_send (Some (_status (dev w))) w.

(** [TuyaDevice.disconnected]. *)
Definition disconnected (w : World) : World :=
  let w := logger DebugDisconnected w in
  let w := async_dispatcher_send None w in
  let w := on_dev (set_interface None) w in
  if negb (CONF_PASSIVE_DEVICE (_config_entry (dev w))) then connect w
  else logger DebugNoReconnect w.

(** [TuyaDevice.close]. *)
Definition close (w : World) : World :=
  let w := on_dev (set_is_closing true) w in
  let w := match _connect_task (dev w) with
           | Some t => cancel t w
           | None => w
           end in
  match _interface (dev w) with
  | Some l => call (LinkClose l) w
  | None => w
  end.

(** What [await self._interface.set_dp(...)] does: return or raise. *)
Inductive write_result := WriteOk | WriteRaises.

(** What a call gives back to its caller. *)
Inductive returned := ReturnsNone | Raises.

(** [TuyaDevice.set_dp]; [res] is the behaviour of the link's [set_dp], read
    only when the link is called.  The method suspends while the link writes;
    it assigns no attribute before or after, so what it does itself is the
    same whatever runs in between. *)
Definition set_dp (state : value) (dp_index : Z) (res : write_result)
    (w : World) : World * returned :=
  match _interface (dev w) with
  | Some l =>
      let w := call (LinkSetDp l state dp_index) w in
      match res with
      | WriteOk => (w, ReturnsNone)
      | WriteRaises => (logger (ExceptionSetDp dp_index state) w, ReturnsNone)
      end
  | None => (logger ErrorNotConnected w, ReturnsNone)
  end.

(** *** The coroutine [_make_connection]

    The pieces below are the stretches of the body that run without
    suspension, in source order. *)

(** Up to [await asyncio.sleep(backoff)]: the wait that is computed. *)
Definition backoff_of (attempts seed : Z) : Z :=
  Z.min (randrange seed (2 ^ attempts)) BACKOFF_TIME_UPPER_LIMIT.

Definition _make_connection_begin (seed : Z) (w : World) : Z * World :=
  let backoff := backoff_of (_connection_attempts (dev w)) seed in
  (backoff, logger (DebugWaiting backoff) w).

(** After the sleep, up to [await pytuya.connect(...)]. *)
Definition _make_connection_open (w : World) : World :=
  call PytuyaConnect (logger DebugConnectingTo w).

(** [pytuya.connect] returned [l]: up to [await self._interface.status()]. *)
Definition _make_connection_opened (l : link) (w : World) : World :=
  let w := on_dev (set_interface (Some l)) w in
  let w := call (LinkAddDps l (_dps_to_request (dev w))) w in
  let w := logger DebugRetrieving w in
  call (LinkStatus l) w.

(** The handler [except Exception:]. *)
Definition _make_connection_except (w : World) : World :=
  let w := logger ExceptionConnectFailed w in
  let w := on_dev (fun d => set_connection_attempts (_connection_attempts d + 1) d) w in
  let w := match _interface (dev w) with
           | Some l => on_dev (set_interface None) (call (LinkClose l) w)
           | None => w
           end in
  call_soon CallConnect w.

(** [status()] returned: [None] raises inside the [try] ([if status is None]),
    anything else is merged and published and the counter is reset. *)
Definition _make_connection_fetched (status : option dict) (w : World) : World :=
  match status with
  | None => _make_connection_except w
  | Some s => on_dev (set_connection_attempts 0) (status_updated s w)
  end.

(** After the sleep, when the arguments of [pytuya.connect] raise: the debug
    record is written ([connect()] has read [CONF_HOST] before), no call is
    made, and the handler runs. *)
Definition _make_connection_args_raise (w : World) : World :=
  _make_connection_except (logger DebugConnectingTo w).

(** [pytuya.connect] returned [l] and [add_dps_to_request] raises: the link
    is assigned and called, and the handler runs. *)
Definition _make_connection_dps_raise (l : link) (w : World) : World :=
  let w := on_dev (set_interface (Some l)) w in
  let w := call (LinkAddDps l (_dps_to_request (dev w))) w in
  _make_connection_except w.

(** The last statement, after the [try]: [self._connect_task = None]. *)
Definition _make_connection_end (w : World) : World :=
  on_dev (set_connect_task None) w.

(** What the loop hands to the task when it resumes it, together with the
    outcome of what the body does next without suspension where that can
    raise: the evaluation of the arguments of [pytuya.connect] (the
    subscripts [CONF_LOCAL_KEY] and [CONF_PROTOCOL_VERSION] of the
    configuration and [float(...)]), and [add_dps_to_request] on the new
    link. *)
Inductive resume :=
| Start (seed : Z)                  (* first step; [seed] feeds randrange        *)
| Woken                             (* asyncio.sleep is over, pytuya.connect is called *)
| Opened (l : link)                 (* pytuya.connect returned the link [l]      *)
| OpenRaises                        (* the awaited pytuya.connect raised an Exception *)
| Fetched (status : option dict)    (* status() returned                         *)
| FetchRaises                       (* status() raised an Exception              *)
| WokenArgsRaise                    (* asyncio.sleep is over, the arguments of
                                       pytuya.connect raise an Exception         *)
| OpenedDpsRaise (l : link).        (* pytuya.connect returned [l] and
                                       l.add_dps_to_request raised an Exception  *)

Definition set_stage (tid : task_id) (st : stage) (w : World) : World :=
  set_tasks (<[tid := {| t_stage := st; t_must_cancel := false |}]> (tasks w)) w.

(** One step of the task [tid].  A task that was cancelled gets
    [CancelledError] thrown at the point where it is suspended: before the
    [try] in [Created] and [AwaitSleep]; inside it in [AwaitOpen] and
    [AwaitStatus], where [except Exception] does not catch it
    ([CancelledError] derives from [BaseException] since Python 3.8).  In
    every case the exception leaves the coroutine and no statement of the
    body runs.  A result that does not fit the stage is not a step of this
    task.  A link's [close()], called by the handler, returns. *)
Definition task_step (tid : task_id) (r : resume) (w : World) : World :=
  match tasks w !! tid with
  | None => w
  | Some t =>
      if task_done t then w
      else if t_must_cancel t then set_stage tid Cancelled w
      else
        match t_stage t, r with
        | Created, Start seed =>
            let '(backoff, w) := _make_connection_begin seed w in
            set_stage tid (AwaitSleep backoff) w
        | AwaitSleep _, Woken =>
            set_stage tid AwaitOpen (_make_connection_open w)
        | AwaitOpen, Opened l =>
            set_stage tid AwaitStatus (_make_connection_opened l w)
        | AwaitOpen, OpenRaises =>
            set_stage tid Finished (_make_connection_end (_make_connection_except w))
        | AwaitStatus, Fetched status =>
            set_stage tid Finished
              (_make_connection_end (_make_connection_fetched status w))
        | AwaitStatus, FetchRaises =>
            set_stage tid Finished (_make_connection_end (_make_connection_except w))
        | AwaitSleep _, WokenArgsRaise =>
            set_stage tid Finished
              (_make_connection_end (_make_connection_args_raise w))
        | AwaitOpen, OpenedDpsRaise l =>
            set_stage tid Finished
              (_make_connection_end (_make_connection_dps_raise l w))
        | _, _ => w
        end
  end.

(** The loop runs the oldest callback queued by [call_soon]. *)
Definition run_callback (w : World) : World :=
  match ready w with
  | [] => w
  | CallConnect :: q => connect (set_ready q w)
  end.

(** ** Everything that can happen to a session *)

Inductive event :=
| Connect                                               (* a consumer calls connect()      *)
| Close                                                 (* a consumer calls close()        *)
| SetDp (state : value) (dp : Z) (res : write_result)   (* a consumer awaits set_dp()      *)
| StatusUpdated (status : dict)                         (* the link calls status_updated() *)
| Disconnected                                          (* the link calls disconnected()   *)
| RunCallback                                           (* the loop runs a queued callback *)
| Resume (tid : task_id) (r : resume).                  (* the loop resumes a task         *)

Definition step (e : event) (w : World) : World :=
  match e with
  | Connect => connect w
  | Close => close w
  | SetDp state dp res => fst (set_dp state dp res w)
  | StatusUpdated status => status_updated status w
  | Disconnected => disconnected w
  | RunCallback => run_callback w
  | Resume tid r => task_step tid r w
  end.

Fixpoint run (es : list event) (w : World) : World :=
  match es with
  | [] => w
  | e :: es => run es (step e w)
  end.

(** The tasks in flight. *)
Definition in_flight (w : World) : list task :=
  filter (λ t, task_done t = false) (tasks w).

(** ** Predicates used in the statements *)

(** Every task in flight is the one the device holds in [_connect_task]. *)
Definition single_flight (w : World) : Prop :=
  ∀ tid t, tasks w !! tid = Some t → task_done t = false →
           _connect_task (dev w) = Some tid.

(** [connect()] takes its [else] branch: the session is closing, or holds a
    task, or holds a link. *)
Definition busy (d : TuyaDevice) : bool :=
  _is_closing d || truthy (_connect_task d) || truthy (_interface d).

(** The second world is the first one with more log records. *)
Definition only_logged (w w' : World) : Prop :=
  dev w' = dev w ∧ tasks w' = tasks w ∧ ready w' = ready w
  ∧ signals w' = signals w ∧ calls w' = calls w.


(** What an event may do to the cache and the dispatcher: everything it
    publishes is [None] or the whole cache as the event leaves it, and the
    cache is left as it was or has one mapping merged into it. *)
Definition status_effect (w w' : World) : Prop :=
  (∃ new, signals w' = signals w ++ new
          ∧ Forall (λ p, p = None ∨ p = Some (_status (dev w'))) new)
  ∧ (_status (dev w') = _status (dev w)
     ∨ ∃ s : dict, _status (dev w') = s ∪ _status (dev w)).

(** Every snapshot published so far has all its keys in the cache. *)
Definition published_keys_cached (w : World) : Prop :=
  Forall (λ p : option dict,
            match p with
            | Some d => dom d ⊆ dom (_status (dev w))
            | None => True
            end) (signals w).

(** ** Concrete sessions used in the examples *)

Definition plug : ConfigEntry :=
  {| CONF_HOST := "10.0.0.5"; CONF_DEVICE_ID := "dev1";
     CONF_FRIENDLY_NAME := "plug"; CONF_PASSIVE_DEVICE := false;
     CONF_ENTITIES := ["1"; "2"] |}.

(** One attempt of task [tid] that succeeds with the snapshot [s]. *)
Definition attempt_succeeds (tid : task_id) (seed : Z) (l : link) (s : dict)
    : list event :=
  [Resume tid (Start seed); Resume tid Woken; Resume tid (Opened l);
   Resume tid (Fetched (Some s))].


(** The ways an attempt fails: the arguments of [pytuya.connect] raise; the
    opening of the link raises; the link opens and [add_dps_to_request]
    raises; the link opens and the status fetch returns [None]; the link
    opens and the fetch raises. *)
Inductive failure :=
| OpenFails
| StatusNone (l : link)
| StatusFails (l : link)
| ArgsFail
| DpsFails (l : link).

(** One failed attempt of task [tid], followed by the loop running the
    [connect] callback that the handler queued. *)
Definition attempt_fails (tid : task_id) (seed : Z) (f : failure) : list event :=
  [Resume tid (Start seed);
   Resume tid (match f with ArgsFail => WokenArgsRaise | _ => Woken end)]
  ++ match f with
     | OpenFails => [Resume tid OpenRaises]
     | StatusNone l => [Resume tid (Opened l); Resume tid (Fetched None)]
     | StatusFails l => [Resume tid (Opened l); Resume tid FetchRaises]
     | ArgsFail => []
     | DpsFails l => [Resume tid (OpenedDpsRaise l)]
     end
  ++ [RunCallback].

(** The steps that end an attempt in the handler [except Exception:]. *)
Definition fails_at (st : stage) (r : resume) : Prop :=
  (st = AwaitOpen ∧ r = OpenRaises)
  ∨ (st = AwaitStatus ∧ (r = Fetched None ∨ r = FetchRaises))
  ∨ (st = AwaitOpen ∧ ∃ l, r = OpenedDpsRaise l)
  ∨ (∃ backoff, st = AwaitSleep backoff ∧ r = WokenArgsRaise).

(** Consecutive failed attempts; each retry is a new task. *)
Fixpoint failures (tid : task_id) (fs : list (Z * failure)) : list event :=
  match fs with
  | [] => []
  | (seed, f) :: fs => attempt_fails tid seed f ++ failures (S tid) fs
  end.

(** The session holds the task [tid], the latest one made, which stands at
    [st] and is not cancelled; the session is not closing and no callback is
    queued. *)
Definition at_stage (tid : task_id) (st : stage) (w : World) : Prop :=
  tasks w !! tid = Some {| t_stage := st; t_must_cancel := false |}
  ∧ length (tasks w) = S tid
  ∧ _connect_task (dev w) = Some tid
  ∧ _is_closing (dev w) = false
  ∧ ready w = [].

(** An attempt has been started by [connect()] and has not run yet. *)
Definition armed (tid : task_id) (w : World) : Prop :=
  at_stage tid Created w ∧ _interface (dev w) = None.

(** ** The rest of the module: set-up helpers and the entity *)

(** A Python object that is [None] or a scalar. *)
Abbreviation pyobj := (option value).

(** An entity's configuration: a dictionary from option name to object. *)
Abbreviation entity_config := (gmap string pyobj).

(** Python's [==] on such objects ([bool] is a subclass of [int], so
    [True == 1]; a string never equals a number). *)
Definition py_eq (a b : pyobj) : bool :=
  match a, b with
  | None, None => true
  | Some (VStr s), Some (VStr t) => bool_decide (s = t)
  | Some (VInt x), Some (VInt y) => bool_decide (x = y)
  | Some (VBool x), Some (VBool y) => bool_decide (x = y)
  | Some (VBool x), Some (VInt y) => bool_decide ((if x then 1 else 0) = y)
  | Some (VInt x), Some (VBool y) => bool_decide (x = (if y then 1 else 0))
  | _, _ => false
  end.

(** Python's [str()] on such objects. *)
Definition py_str (o : pyobj) : string :=
  match o with
  | None => "None"
  | Some (VStr s) => s
  | Some (VInt z) => pretty z
  | Some (VBool true) => "True"
  | Some (VBool false) => "False"
  end.

Inductive exn :=
| KeyError                  (* a subscript on a dictionary without the key   *)
| MissingEntityConfig       (* Exception("missing entity config for id ...") *)
| AttributeError            (* an attribute read on None                     *)
| ValueError.               (* datetime.fromisoformat on a malformed string  *)

Inductive result (A : Type) :=
| Return (a : A)
| Raise (e : exn).

Arguments Return {A} a.
Arguments Raise {A} e.

Section Setup.

(** The keys [homeassistant.const.CONF_ID] and [CONF_PLATFORM]. *)
Variables CONF_ID CONF_PLATFORM : string.

(** [get_entity_config]; [entities] is [config_entry.data[CONF_ENTITIES]]. *)
Fixpoint get_entity_config (entities : list entity_config) (dp_id : pyobj)
    : result entity_config :=
  match entities with
  | [] => Raise MissingEntityConfig
  | entity :: rest =>
      match entity !! CONF_ID with
      | None => Raise KeyError
      | Some id =>
          if py_eq id dp_id then Return entity
          else get_entity_config rest dp_id
      end
  end.

(** The comprehension of [prepare_setup_entities]: the entities whose
    [CONF_PLATFORM] equals [platform], in order. *)
Fixpoint entities_to_setup (entities : list entity_config) (platform : string)
    : result (list entity_config) :=
  match entities with
  | [] => Return []
  | entity :: rest =>
      match entity !! CONF_PLATFORM with
      | None => Raise KeyError
      | Some p =>
          match entities_to_setup rest platform with
          | Raise e => Raise e
          | Return l =>
              Return (if py_eq p (Some (VStr platform)) then entity :: l else l)
          end
      end
  end.

(** [prepare_setup_entities].  [registered] is the device that
    [hass.data[DOMAIN][config_entry.entry_id][TUYA_DEVICE]] holds, [None] when
    that subscript raises.  The pair [(None, None)] is [Return None]. *)
Definition prepare_setup_entities {T} (registered : option T)
    (entities : list entity_config) (platform : string)
    : result (option (T * list entity_config)) :=
  match entities_to_setup entities platform with
  | Raise e => Raise e
  | Return [] => Return None
  | Return l =>
      match registered with
      | None => Raise KeyError
      | Some tuyainterface => Return (Some (tuyainterface, l))
      end
  end.

(** The entity [e] is of the platform. *)
Definition of_platform (platform : string) (e : entity_config) : bool :=
  match e !! CONF_PLATFORM with
  | Some p => py_eq p (Some (VStr platform))
  | None => false
  end.

End Setup.

(** A point in time, as [datetime.now()] gives it. *)
Definition datetime := Z.

(** What an entity's [_status] refers to: the device's own dictionary (the
    object that [status_updated] sends), or a dictionary of the entity. *)
Inductive status_ref :=
| DeviceCache
| Own (d : dict).

(** The attributes of a stored state that the entity reads. *)
Record State := {
  ATTR_LAST_SEEN : option string;     (* attributes.get(ATTR_LAST_SEEN) *)
  ATTR_OLD_STATE : option dict        (* attributes.get(ATTR_OLD_STATE) *)
}.

(** The device's dictionary as it is now. *)
Definition cache (w : World) : dict := _status (dev w).

Module LocalTuyaEntity.

(** The attributes set by [LocalTuyaEntity.__init__], with what the entity
    has asked of Home Assistant: whether its handler is connected to the
    dispatcher, and how many state writes it has scheduled. *)
Record t := {
  _config_entry : ConfigEntry;          (* config_entry.data *)
  _config : entity_config;
  _dp_id : pyobj;
  _status : status_ref;
  _last_seen : option datetime;
  subscribed : bool;
  scheduled : nat
}.

(** [LocalTuyaEntity.__init__]. *)
Definition __init__ (CONF_ID : string) (data : ConfigEntry)
    (entities : list entity_config) (dp_id : pyobj) : result t :=
  match get_entity_config CONF_ID entities dp_id with
  | Raise e => Raise e
  | Return config =>
      Return {| _config_entry := data; _config := config; _dp_id := dp_id;
                _status := Own ∅; _last_seen := None;
                subscribed := false; scheduled := 0 |}
  end.

(** [_update_handler], the function connected to the dispatcher;
    [status_updated()] of the base class does nothing. *)
Definition _update_handler (now : datetime) (status : option status_ref)
    (e : t) : t :=
  let '(st, seen) :=
    match status with
    | Some s => (s, None)
    | None =>
        if CONF_PASSIVE_DEVICE (_config_entry e) then (_status e, Some now)
        else (Own ∅, None)
    end in
  {| _config_entry := _config_entry e; _config := _config e; _dp_id := _dp_id e;
     _status := st; _last_seen := seen;
     subscribed := subscribed e; scheduled := S (scheduled e) |}.

(** [async_added_to_hass]; [state] is what [async_get_last_state()] returns
    and [fromisoformat] is [datetime.fromisoformat], [None] where it raises. *)
Definition async_added_to_hass (fromisoformat : string → option datetime)
    (state : option State) (e : t) : t * result unit :=
  let e := {| _config_entry := _config_entry e; _config := _config e;
              _dp_id := _dp_id e; _status := _status e;
              _last_seen := _last_seen e;
              subscribed := true; scheduled := scheduled e |} in
  match state with
  | None =>
      if CONF_PASSIVE_DEVICE (_config_entry e) then (e, Raise AttributeError)
      else (e, Return ())
  | Some state =>
      let seen :=
        match ATTR_LAST_SEEN state with
        | Some last_seen =>
            if bool_decide (last_seen = "") then Return (_last_seen e)
            else match fromisoformat last_seen with
                 | Some d => Return (Some d)
                 | None => Raise ValueError
                 end
        | None => Return (_last_seen e)
        end in
      match seen with
      | Raise x => (e, Raise x)
      | Return seen =>
          ({| _config_entry := _config_entry e; _config := _config e;
              _dp_id := _dp_id e;
              _status := Own (default ∅ (ATTR_OLD_STATE state));
              _last_seen := seen;
              subscribed := true; scheduled := scheduled e |}, Return ())
      end
  end.

(** The dictionary that [self._status] is at the moment. *)
Definition status_now (w : World) (e : t) : dict :=
  match _status e with
  | DeviceCache => cache w
  | Own d => d
  end.

(** [device_state_attributes]: [None] is the empty dictionary, otherwise the
    values under [ATTR_LAST_SEEN] and [ATTR_OLD_STATE]. *)
Definition device_state_attributes (w : World) (e : t)
    : option (datetime * dict) :=
  match _last_seen e with
  | Some seen => Some (seen, status_now w e)
  | None => None
  end.

(** [has_config]. *)
Definition has_config (attr : string) (e : t) : bool :=
  let value := default (Some (VStr "-1")) (_config e !! attr) in
  bool_decide (value ≠ None) && negb (py_eq value (Some (VStr "-1"))).

(** [available]. *)
Definition available (w : World) (e : t) : bool :=
  bool_decide (py_str (_dp_id e) ∈ dom (status_now w e)).

(** [dps]. *)
Definition dps (w : World) (dp_index : pyobj) (e : t) : option value :=
  status_now w e !! py_str dp_index.

(** [dps_conf]. *)
Definition dps_conf (w : World) (conf_item : string) (e : t) : option value :=
  let dp_index := default None (_config e !! conf_item) in
  dps w dp_index e.

End LocalTuyaEntity.

(** The dispatcher hands a payload of the device to the entity's handler: a
    dictionary sent by [status_updated] is the device's own. *)
Definition deliver (now : datetime) (payload : option dict)
    (e : LocalTuyaEntity.t) : LocalTuyaEntity.t :=
  LocalTuyaEntity._update_handler now
    (match payload with Some _ => Some DeviceCache | None => None end) e.

(** The most recent dictionary among the payloads, empty if there is none. *)
Definition last_snapshot (payloads : list (option dict)) : dict :=
  foldl (λ acc p, default acc p) ∅ payloads.

(** The calls of [pytuya.connect] so far. *)
Definition is_open (c : link_call) : bool :=
  match c with PytuyaConnect => true | _ => false end.

Definition opens (w : World) : nat :=
  length (filter (λ c, is_open c = true) (calls w)).

(** The session is closing and every task still in flight is cancelled. *)
Definition shut (w : World) : Prop :=
  _is_closing (dev w) = true
  ∧ ∀ t, t ∈ tasks w → task_done t = false → t_must_cancel t = true.

(** The entity has an id and it is not [dp_id]. *)
Definition other_id (CONF_ID : string) (dp_id : pyobj) (e : entity_config) : Prop :=
  ∃ id, e !! CONF_ID = Some id ∧ py_eq id dp_id = false.

(** A task that is held is in flight unless the session is closing, and only
    a closing session has cancelled tasks. *)
Definition handle_live (w : World) : Prop :=
  (∀ tid, _connect_task (dev w) = Some tid →
     _is_closing (dev w) = true
     ∨ ∃ t, tasks w !! tid = Some t ∧ task_done t = false)
  ∧ (∀ i t, tasks w !! i = Some t → t_must_cancel t = true →
       _is_closing (dev w) = true).

(** From [w] to [w'] the counter has not moved, no link was opened, nothing
    was queued, and the link held is the same or gone. *)
Definition frozen (w w' : World) : Prop :=
  _connection_attempts (dev w') = _connection_attempts (dev w)
  ∧ opens w' = opens w
  ∧ (length (ready w') ≤ length (ready w))%nat
  ∧ (_interface (dev w') = _interface (dev w) ∨ _interface (dev w') = None).

(** An event publishes nothing and leaves the cache alone, or publishes
    [None] and leaves the cache alone, or publishes the cache as it leaves
    it. *)
Definition publishes (w w' : World) : Prop :=
  (signals w' = signals w ∧ cache w' = cache w)
  ∨ (signals w' = signals w ++ [None] ∧ cache w' = cache w)
  ∨ signals w' = signals w ++ [Some (cache w')].

(** An entity of the device [plug] for the datapoint 2, as [__init__] makes
    it. *)
Definition plug_entity : LocalTuyaEntity.t :=
  {| LocalTuyaEntity._config_entry := plug;
     LocalTuyaEntity._config :=
       {[ "id" := Some (VInt 2); "platform" := Some (VStr "switch");
          "current" := Some (VInt 18); "voltage" := Some (VStr "-1") ]};
     LocalTuyaEntity._dp_id := Some (VInt 2);
     LocalTuyaEntity._status := Own ∅;
     LocalTuyaEntity._last_seen := None;
     LocalTuyaEntity.subscribed := false;
     LocalTuyaEntity.scheduled := 0 |}.
(** ** Basic facts *)

Lemma run_app (es1 es2 : list event) (w : World) :
  run (es1 ++ es2) w = run es2 (run es1 w).
Proof. revert w. induction es1 as [|e es1 IH]; intros w; simpl; [done | apply IH]. Qed.

(** A property kept by every event holds after every trace. *)
Lemma run_invariant (P : World → Prop) :
  (∀ e w, P w → P (step e w)) → ∀ es w, P w → P (run es w).
Proof.
  intros Hstep es. induction es as [|e es IH]; intros w Hw; simpl; [done |].
  apply IH, Hstep, Hw.
Qed.

Ltac open_world w :=
  let d := fresh "d" in
  destruct w as [d ? ? ? ? ?]; destruct d; cbn in *.

(** What the pieces of [_make_connection] leave alone. *)
Lemma except_frame (w : World) :
  tasks (_make_connection_except w) = tasks w
  ∧ _connect_task (dev (_make_connection_except w)) = _connect_task (dev w)
  ∧ _is_closing (dev (_make_connection_except w)) = _is_closing (dev w)
  ∧ _status (dev (_make_connection_except w)) = _status (dev w)
  ∧ signals (_make_connection_except w) = signals w
  ∧ _config_entry (dev (_make_connection_except w)) = _config_entry (dev w).
Proof.
  unfold _make_connection_except. open_world w.
  by destruct _interface0.
Qed.

Lemma fetched_frame (status : option dict) (w : World) :
  tasks (_make_connection_fetched status w) = tasks w
  ∧ _connect_task (dev (_make_connection_fetched status w)) = _connect_task (dev w)
  ∧ _is_closing (dev (_make_connection_fetched status w)) = _is_closing (dev w)
  ∧ _config_entry (dev (_make_connection_fetched status w)) = _config_entry (dev w).
Proof.
  destruct status as [s|]; simpl; [by open_world w |].
  pose proof (except_frame w) as (? & ? & ? & _ & _ & ?). done.
Qed.

(** *** One attempt at a time *)

Lemma args_raise_frame (w : World) :
  tasks (_make_connection_args_raise w) = tasks w
  ∧ _connect_task (dev (_make_connection_args_raise w)) = _connect_task (dev w)
  ∧ _is_closing (dev (_make_connection_args_raise w)) = _is_closing (dev w)
  ∧ _status (dev (_make_connection_args_raise w)) = _status (dev w)
  ∧ signals (_make_connection_args_raise w) = signals w
  ∧ _config_entry (dev (_make_connection_args_raise w)) = _config_entry (dev w).
Proof.
  unfold _make_connection_args_raise.
  pose proof (except_frame (logger DebugConnectingTo w))
    as (-> & -> & -> & -> & -> & ->). done.
Qed.

Lemma dps_raise_frame (l : link) (w : World) :
  tasks (_make_connection_dps_raise l w) = tasks w
  ∧ _connect_task (dev (_make_connection_dps_raise l w)) = _connect_task (dev w)
  ∧ _is_closing (dev (_make_connection_dps_raise l w)) = _is_closing (dev w)
  ∧ _status (dev (_make_connection_dps_raise l w)) = _status (dev w)
  ∧ signals (_make_connection_dps_raise l w) = signals w
  ∧ _config_entry (dev (_make_connection_dps_raise l w)) = _config_entry (dev w).
Proof.
  unfold _make_connection_dps_raise. cbv zeta.
  match goal with |- context [_make_connection_except ?x] =>
    pose proof (except_frame x) as (-> & -> & -> & -> & -> & ->) end.
  done.
Qed.

Lemma filter_none {A} (P : A → Prop) `{!∀ x, Decision (P x)} (l : list A) :
  (∀ x, x ∈ l → ¬ P x) → filter P l = [].
Proof.
  induction l as [|a l IH]; intros Hl; [done |].
  rewrite filter_cons_False by (apply Hl; left).
  apply IH. intros x Hx. apply Hl. by right.
Qed.

Lemma filter_at_most_one {A} (P : A → Prop) `{!∀ x, Decision (P x)} (l : list A) :
  (∀ i j x y, l !! i = Some x → l !! j = Some y → P x → P y → i = j) →
  (length (filter P l) ≤ 1)%nat.
Proof.
  induction l as [|a l IH]; intros Huniq; [simpl; lia |].
  rewrite filter_cons. destruct (decide (P a)) as [Ha|Ha].
  - assert (filter P l = []) as ->; [| simpl; lia].
    apply filter_none. intros y Hy Py.
    apply list_elem_of_lookup in Hy as [j Hj].
    specialize (Huniq 0%nat (S j) a y eq_refl Hj Ha Py). lia.
  - apply IH. intros i j x y Hi Hj Px Py.
    specialize (Huniq (S i) (S j) x y Hi Hj Px Py). lia.
Qed.

Lemma single_flight_count (w : World) :
  single_flight w → (length (in_flight w) ≤ 1)%nat.
Proof.
  intros Hw. apply filter_at_most_one. intros i j x y Hi Hj Hx Hy.
  pose proof (Hw i x Hi Hx) as E1. pose proof (Hw j y Hj Hy) as E2. congruence.
Qed.

Lemma single_flight_idle (w : World) :
  single_flight w → _connect_task (dev w) = None → in_flight w = [].
Proof.
  intros Hw Hnone. apply filter_none. intros t Ht Hlive.
  apply list_elem_of_lookup in Ht as [i Hi].
  specialize (Hw i t Hi Hlive). congruence.
Qed.

Lemma boot_single_flight (cfg : ConfigEntry) : single_flight (boot cfg).
Proof. intros tid t Ht. simpl in Ht. by rewrite lookup_nil in Ht. Qed.

Lemma connect_single_flight (w : World) :
  single_flight w → single_flight (connect w).
Proof.
  intros Hw. unfold connect.
  destruct (_is_closing (dev w)) eqn:Hc; simpl; [exact Hw |].
  destruct (_connect_task (dev w)) as [t0|] eqn:Ht; simpl; [exact Hw |].
  destruct (_interface (dev w)) eqn:Hi; simpl; [exact Hw |].
  intros tid t Hlook Hlive. simpl in *.
  apply lookup_app_Some in Hlook as [Hold | [Hge Hnew]].
  - specialize (Hw tid t Hold Hlive). congruence.
  - apply list_lookup_singleton_Some in Hnew as [Hz _]. f_equal. lia.
Qed.

Lemma cancel_frame (tid : task_id) (w : World) :
  dev (cancel tid w) = dev w ∧ ready (cancel tid w) = ready w
  ∧ signals (cancel tid w) = signals w ∧ calls (cancel tid w) = calls w
  ∧ log (cancel tid w) = log w
  ∧ length (tasks (cancel tid w)) = length (tasks w)
  ∧ ∀ i t', tasks (cancel tid w) !! i = Some t' →
      ∃ t, tasks w !! i = Some t ∧ t_stage t' = t_stage t.
Proof.
  unfold cancel. destruct (tasks w !! tid) as [t|] eqn:Ht; [| naive_solver].
  destruct (task_done t); [naive_solver |]. simpl.
  rewrite length_insert. repeat split; try done.
  intros i t' Hi. destruct (decide (i = tid)) as [->|Hne].
  - rewrite list_lookup_insert_eq in Hi by (by eapply lookup_lt_Some).
    injection Hi as <-. eauto.
  - rewrite list_lookup_insert_ne in Hi by done. eauto.
Qed.

Lemma close_single_flight (w : World) :
  single_flight w → single_flight (close w).
Proof.
  intros Hw. unfold close.
  set (w1 := on_dev (set_is_closing true) w).
  assert (single_flight w1) as H1 by (intros tid t; apply Hw).
  set (w2 := match _connect_task (dev w1) with Some t => cancel t w1 | None => w1 end).
  assert (single_flight w2) as H2.
  { subst w2. destruct (_connect_task (dev w1)) as [t0|]; [| done].
    destruct (cancel_frame t0 w1) as (Hd & _ & _ & _ & _ & _ & Hts).
    intros tid t Hlook Hlive. rewrite Hd.
    destruct (Hts tid t Hlook) as (t1 & Hl1 & Hst).
    apply (H1 tid t1 Hl1). unfold task_done in *. by rewrite <- Hst. }
  destruct (_interface (dev w2)); [| done].
  intros tid t; apply H2.
Qed.

Lemma task_step_single_flight (tid : task_id) (r : resume) (w : World) :
  single_flight w → single_flight (task_step tid r w).
Proof.
  intros Hw. unfold task_step.
  destruct (tasks w !! tid) as [t|] eqn:Ht; [| done].
  destruct (task_done t) eqn:Hdone; [done |].
  pose proof (Hw tid t Ht Hdone) as Hhandle.
  assert (Hset : ∀ st w',
    tasks w' = tasks w →
    (task_done {| t_stage := st; t_must_cancel := false |} = false →
       _connect_task (dev w') = _connect_task (dev w)) →
    single_flight (set_stage tid st w')).
  { intros st w' Hts Hh i t' Hi Hlive. simpl in *. rewrite Hts in Hi.
    destruct (decide (i = tid)) as [->|Hne].
    - rewrite list_lookup_insert_eq in Hi by (by eapply lookup_lt_Some).
      injection Hi as <-. rewrite Hh by done. done.
    - rewrite list_lookup_insert_ne in Hi by done.
      pose proof (Hw i t' Hi Hlive). congruence. }
  destruct (t_must_cancel t); [by apply Hset |].
  pose proof (except_frame w) as (He1 & He2 & _).
  pose proof (args_raise_frame w) as (Ha1 & _).
  destruct (t_stage t), r as [| |l| |status| | |l]; try done;
    try (apply Hset; done).
  destruct (fetched_frame status w) as (Hf1 & _). by apply Hset.
Qed.

Lemma step_single_flight (e : event) (w : World) :
  single_flight w → single_flight (step e w).
Proof.
  intros Hw. destruct e; simpl.
  - by apply connect_single_flight.
  - by apply close_single_flight.
  - unfold set_dp. destruct (_interface (dev w)); [destruct res |]; exact Hw.
  - exact Hw.
  - unfold disconnected.
    destruct (negb _); [apply connect_single_flight |]; exact Hw.
  - unfold run_callback. destruct (ready w) as [|[] q]; [done |].
    apply connect_single_flight. exact Hw.
  - by apply task_step_single_flight.
Qed.

Lemma reachable_single_flight (cfg : ConfigEntry) (es : list event) :
  single_flight (run es (boot cfg)).
Proof. apply run_invariant; [apply step_single_flight | apply boot_single_flight]. Qed.

Lemma connect_busy (w : World) :
  busy (dev w) = true → only_logged w (connect w).
Proof.
  unfold busy, connect. intros Hb.
  destruct (_is_closing (dev w)); simpl in *; [done |].
  destruct (_connect_task (dev w)); simpl in *; [done |].
  destruct (_interface (dev w)); simpl in *; done.
Qed.

Lemma connect_idle (w : World) :
  busy (dev w) = false →
  tasks (connect w) = tasks w ++ [{| t_stage := Created; t_must_cancel := false |}]
  ∧ dev (connect w) = set_connect_task (Some (length (tasks w))) (dev w)
  ∧ ready (connect w) = ready w ∧ signals (connect w) = signals w
  ∧ calls (connect w) = calls w ∧ log (connect w) = log w ++ [DebugConnecting].
Proof.
  unfold busy, connect. intros Hb.
  destruct (_is_closing (dev w)); simpl in *; [done |].
  destruct (_connect_task (dev w)); simpl in *; [done |].
  destruct (_interface (dev w)); simpl in *; done.
Qed.

Lemma connect_makes_busy (w : World) : busy (dev (connect w)) = true.
Proof.
  destruct (busy (dev w)) eqn:Hb.
  - destruct (connect_busy w Hb) as (-> & _). done.
  - destruct (connect_idle w Hb) as (_ & -> & _). unfold busy. simpl.
    by destruct (_is_closing (dev w)).
Qed.

(** ** The wait before an attempt *)

Lemma randrange_range (seed stop : Z) : 0 < stop → 0 ≤ randrange seed stop < stop.
Proof. intros Hs. unfold randrange. by apply Z.mod_pos_bound. Qed.

Lemma randrange_onto (r stop : Z) : 0 ≤ r < stop → randrange r stop = r.
Proof. intros Hr. unfold randrange. by apply Z.mod_small. Qed.

(** The attempt counter of a session is never negative. *)
Lemma step_attempts_nonneg (e : event) (w : World) :
  0 ≤ _connection_attempts (dev w) → 0 ≤ _connection_attempts (dev (step e w)).
Proof.
  intros Hw.
  assert (Hconn : ∀ w0, 0 ≤ _connection_attempts (dev w0) →
                        0 ≤ _connection_attempts (dev (connect w0))).
  { intros w0 H0. destruct (busy (dev w0)) eqn:Hb.
    - destruct (connect_busy w0 Hb) as (-> & _). done.
    - destruct (connect_idle w0 Hb) as (_ & -> & _). done. }
  assert (Hexc : ∀ w0, 0 ≤ _connection_attempts (dev w0) →
                       0 ≤ _connection_attempts (dev (_make_connection_except w0))).
  { intros w0 H0. unfold _make_connection_except. open_world w0.
    destruct _interface0; simpl; lia. }
  destruct e; simpl.
  - by apply Hconn.
  - unfold close. set (w1 := on_dev (set_is_closing true) w).
    assert (0 ≤ _connection_attempts (dev w1)) as H1 by done.
    destruct (_connect_task (dev w1)) as [t|].
    + destruct (cancel_frame t w1) as (Hd & _).
      destruct (_interface (dev (cancel t w1))); simpl; by rewrite Hd.
    + by destruct (_interface (dev w1)).
  - unfold set_dp. by destruct (_interface (dev w)); [destruct res |].
  - done.
  - unfold disconnected. destruct (negb _); [apply Hconn |]; done.
  - unfold run_callback. destruct (ready w) as [|[] q]; [done |]. by apply Hconn.
  - unfold task_step. destruct (tasks w !! tid) as [t|]; [| done].
    destruct (task_done t); [done |]. destruct (t_must_cancel t); [done |].
    destruct (t_stage t), r as [| |l| |status| | |l]; simpl; try done;
      try (by apply Hexc).
    + destruct (_interface (dev w)); simpl; lia.
    + lia.
    + destruct status; simpl; [done | by apply Hexc].
Qed.

Lemma reachable_attempts_nonneg (cfg : ConfigEntry) (es : list event) :
  0 ≤ _connection_attempts (dev (run es (boot cfg))).
Proof.
  apply (run_invariant (λ w, 0 ≤ _connection_attempts (dev w)));
    [apply step_attempts_nonneg | done].
Qed.

(** ** Theorems *)

(** C1.  In every state a session can reach there is at most one connection
    attempt in flight, and an attempt in flight is the task the session holds.
    [connect()] on a session that is closing, holds a task or holds a link
    changes nothing but the log; on any other session nothing is in flight
    and it starts exactly one attempt.  A second [connect()] right after the
    first changes nothing but the log, so that one attempt stays the only
    one. *)
Theorem connect_at_most_one_attempt (cfg : ConfigEntry) (es : list event) :
  let w := run es (boot cfg) in
  (length (in_flight w) ≤ 1)%nat
  ∧ (in_flight w = [] ∨ is_Some (_connect_task (dev w)))
  ∧ (if busy (dev w)
     then only_logged w (connect w)
     else in_flight w = []
          ∧ length (in_flight (connect w)) = 1%nat
          ∧ length (in_flight (connect (connect w))) = 1%nat)
  ∧ only_logged (connect w) (connect (connect w))
  ∧ (length (in_flight (connect (connect w))) ≤ 1)%nat.
Proof.
  intros w. pose proof (reachable_single_flight cfg es) as Hw. fold w in Hw.
  assert (Hlog : only_logged (connect w) (connect (connect w)))
    by apply connect_busy, connect_makes_busy.
  assert (Hsame : in_flight (connect (connect w)) = in_flight (connect w)).
  { unfold in_flight. destruct Hlog as (_ & -> & _). done. }
  split; [by apply single_flight_count |].
  split.
  { destruct (_connect_task (dev w)) eqn:Ht; [right; eauto |].
    left. by apply single_flight_idle. }
  split.
  { destruct (busy (dev w)) eqn:Hb; [by apply connect_busy |].
    assert (in_flight w = []) as Hnil.
    { apply single_flight_idle; [done |]. unfold busy in Hb.
      destruct (_connect_task (dev w)); [| done].
      simpl in Hb. by rewrite orb_true_r in Hb. }
    destruct (connect_idle w Hb) as (Hts & _).
    assert (length (in_flight (connect w)) = 1%nat) as Hone.
    { unfold in_flight in *. rewrite Hts, list.filter_app, Hnil. done. }
    by rewrite Hsame. }
  split; [done |].
  rewrite Hsame. apply single_flight_count, connect_single_flight, Hw.
Qed.

(** C6.  For an attempt count [n >= 0] the wait computed before an attempt is
    [min(r, 300)] for the draw [r = randrange(2 ** n)], which lies in
    [0, 2^n); so it is at least 0 and at most 300.  Every [r] of that range
    is the draw of some seed.  For [n = 0] the wait is 0. *)
Theorem backoff_bounds (n seed : Z) :
  0 ≤ n →
  0 ≤ backoff_of n seed ≤ 300
  ∧ 0 ≤ randrange seed (2 ^ n) < 2 ^ n
  ∧ backoff_of n seed = Z.min (randrange seed (2 ^ n)) 300
  ∧ (∀ r, 0 ≤ r < 2 ^ n → backoff_of n r = Z.min r 300)
  ∧ backoff_of 0 seed = 0
  ∧ ∀ w, _connection_attempts (dev w) = n →
         fst (_make_connection_begin seed w) = backoff_of n seed.
Proof.
  intros Hn.
  assert (0 < 2 ^ n) as Hpow by (by apply Z.pow_pos_nonneg).
  pose proof (randrange_range seed (2 ^ n) Hpow) as Hr.
  split; [unfold backoff_of, BACKOFF_TIME_UPPER_LIMIT; lia |].
  split; [exact Hr |].
  split; [reflexivity |].
  split; [intros r Hrange; unfold backoff_of; by rewrite randrange_onto |].
  split; [unfold backoff_of, randrange; by rewrite Z.pow_0_r, Z.mod_1_r |].
  intros w <-. reflexivity.
Qed.

Lemma backoff_bounds_witness :
  0 ≤ backoff_of 9 1000 ≤ 300 ∧ backoff_of 9 1000 = 300 ∧ backoff_of 0 1000 = 0.
Proof.
  destruct (backoff_bounds 9 1000) as (Hb & _ & _ & _ & H0 & _); [lia |].
  split; [exact Hb |]. split; [reflexivity | exact H0].
Defined.

(** *** What a task step leaves alone *)

#[local] Arguments _make_connection_except : simpl never.
#[local] Arguments _make_connection_fetched : simpl never.
#[local] Arguments _make_connection_args_raise : simpl never.
#[local] Arguments _make_connection_dps_raise : simpl never.

Lemma task_step_frame (tid : task_id) (r : resume) (w : World) :
  length (tasks (task_step tid r w)) = length (tasks w)
  ∧ _is_closing (dev (task_step tid r w)) = _is_closing (dev w)
  ∧ _config_entry (dev (task_step tid r w)) = _config_entry (dev w).
Proof.
  unfold task_step. destruct (tasks w !! tid) as [t|]; [| done].
  destruct (task_done t); [done |].
  destruct (t_must_cancel t); [simpl; by rewrite length_insert |].
  pose proof (except_frame w) as (He1 & _ & He3 & _ & _ & He6).
  pose proof (args_raise_frame w) as (Ha1 & _ & Ha3 & _ & _ & Ha6).
  destruct (t_stage t), r as [| |l| |status| | |l]; cbn;
    rewrite ?length_insert, ?He1, ?He3, ?He6, ?Ha1, ?Ha3, ?Ha6; try done.
  pose proof (fetched_frame status w) as (-> & _ & -> & ->). done.
Qed.

Lemma close_frame (w : World) :
  length (tasks (close w)) = length (tasks w)
  ∧ _is_closing (dev (close w)) = true
  ∧ _connect_task (dev (close w)) = _connect_task (dev w)
  ∧ _interface (dev (close w)) = _interface (dev w)
  ∧ _connection_attempts (dev (close w)) = _connection_attempts (dev w)
  ∧ _status (dev (close w)) = _status (dev w)
  ∧ _config_entry (dev (close w)) = _config_entry (dev w)
  ∧ signals (close w) = signals w
  ∧ ready (close w) = ready w.
Proof.
  unfold close. set (w1 := on_dev (set_is_closing true) w).
  destruct (_connect_task (dev w1)) as [t|] eqn:Ht.
  - destruct (cancel_frame t w1) as (Hd & Hr & Hs & _ & _ & Hl & _).
    destruct (_interface (dev (cancel t w1))); simpl; rewrite ?Hd, ?Hl, ?Hs, ?Hr; done.
  - destruct (_interface (dev w1)); done.
Qed.

(** Once [_is_closing] is set, no event clears it and no event makes a task. *)
Lemma step_closing (e : event) (w : World) :
  _is_closing (dev w) = true →
  _is_closing (dev (step e w)) = true
  ∧ length (tasks (step e w)) = length (tasks w).
Proof.
  intros Hc.
  assert (Hconn : ∀ w0, _is_closing (dev w0) = true →
            _is_closing (dev (connect w0)) = true
            ∧ length (tasks (connect w0)) = length (tasks w0)).
  { intros w0 H0.
    destruct (connect_busy w0) as (-> & -> & _); [| done].
    unfold busy. by rewrite H0. }
  destruct e; simpl.
  - by apply Hconn.
  - destruct (close_frame w) as (? & ? & _). done.
  - unfold set_dp. by destruct (_interface (dev w)); [destruct res |].
  - done.
  - unfold disconnected. destruct (negb _); [| done].
    set (w0 := on_dev _ _). destruct (Hconn w0) as [-> ->]; done.
  - unfold run_callback. destruct (ready w) as [|[] q]; [done |].
    destruct (Hconn (set_ready q w)) as [-> ->]; done.
  - destruct (task_step_frame tid r w) as (-> & -> & _). done.
Qed.

(** C8.  After [close()], whatever happens next (calls of [connect()] by a
    consumer, by the retry callback or by the disconnection callback, task
    steps, status updates, writes, further [close()]s), the session stays
    closing, no task is made, and [connect()] changes nothing but the log. *)
Theorem closed_is_terminal (w : World) (es : list event) :
  let w' := run es (close w) in
  _is_closing (dev w') = true
  ∧ length (tasks w') = length (tasks w)
  ∧ only_logged w' (connect w')
  ∧ tasks (disconnected w') = tasks w'.
Proof.
  intros w'.
  assert (_is_closing (dev w') = true ∧ length (tasks w') = length (tasks w))
    as [Hc Hl].
  { subst w'.
    apply (run_invariant (λ w0, _is_closing (dev w0) = true
                                ∧ length (tasks w0) = length (tasks w))).
    - intros e w0 [H1 H2]. destruct (step_closing e w0 H1) as [? ?].
      split; [done | congruence].
    - destruct (close_frame w) as (? & ? & _). done. }
  assert (Hbusy : ∀ w0, _is_closing (dev w0) = true → only_logged w0 (connect w0)).
  { intros w0 H0. apply connect_busy. unfold busy. by rewrite H0. }
  split; [done |]. split; [done |]. split; [by apply Hbusy |].
  unfold disconnected. destruct (negb _); [| done].
  set (w0 := on_dev _ _). destruct (Hbusy w0) as (_ & -> & _); done.
Qed.

(** *** The status cache *)

Lemma status_effect_quiet (w w' : World) :
  signals w' = signals w → _status (dev w') = _status (dev w) →
  status_effect w w'.
Proof.
  intros Hs Hd. split; [| by left].
  exists []. by rewrite app_nil_r.
Qed.

Lemma connect_status (w : World) :
  signals (connect w) = signals w ∧ _status (dev (connect w)) = _status (dev w).
Proof.
  destruct (busy (dev w)) eqn:Hb.
  - destruct (connect_busy w Hb) as (-> & _ & _ & -> & _). done.
  - destruct (connect_idle w Hb) as (_ & -> & _ & -> & _). done.
Qed.

Lemma status_updated_effect (status : dict) (w : World) :
  _status (dev (status_updated status w)) = status ∪ _status (dev w)
  ∧ signals (status_updated status w)
    = signals w ++ [Some (status ∪ _status (dev w))].
Proof. done. Qed.

Lemma task_step_status (tid : task_id) (r : resume) (w : World) :
  status_effect w (task_step tid r w).
Proof.
  unfold task_step. destruct (tasks w !! tid) as [t|]; [| by apply status_effect_quiet].
  destruct (task_done t); [by apply status_effect_quiet |].
  destruct (t_must_cancel t); [by apply status_effect_quiet |].
  pose proof (except_frame w) as (_ & _ & _ & He4 & He5 & _).
  pose proof (args_raise_frame w) as (_ & _ & _ & Ha4 & Ha5 & _).
  destruct (t_stage t), r as [| |l| |[s|]| | |l];
    try (by apply status_effect_quiet).
  split; [| right; by exists s].
  exists [Some (s ∪ _status (dev w))]. split; [done |].
  constructor; [by right | constructor].
Qed.

Lemma step_status (e : event) (w : World) : status_effect w (step e w).
Proof.
  destruct e; simpl.
  - destruct (connect_status w). by apply status_effect_quiet.
  - destruct (close_frame w) as (_ & _ & _ & _ & _ & ? & _ & ? & _).
    by apply status_effect_quiet.
  - unfold set_dp.
    destruct (_interface (dev w)); [destruct res |]; by apply status_effect_quiet.
  - split; [| right; by exists status].
    exists [Some (status ∪ _status (dev w))]. split; [done |].
    constructor; [by right | constructor].
  - assert (signals (disconnected w) = signals w ++ [None]
            ∧ _status (dev (disconnected w)) = _status (dev w)) as [Hs Hd].
    { unfold disconnected. destruct (negb _); [| done].
      set (w0 := on_dev _ _). destruct (connect_status w0) as [-> ->]. done. }
    split; [| by left]. exists [None]. split; [done |].
    constructor; [by left | constructor].
  - unfold run_callback. destruct (ready w) as [|[] q]; [by apply status_effect_quiet |].
    destruct (connect_status (set_ready q w)). by apply status_effect_quiet.
  - apply task_step_status.
Qed.

Lemma status_effect_dom (w w' : World) :
  status_effect w w' → dom (_status (dev w)) ⊆ dom (_status (dev w')).
Proof.
  intros [_ [-> | [s ->]]]; [done |]. rewrite dom_union. set_solver.
Qed.

Lemma run_status_dom (es : list event) (w : World) :
  dom (_status (dev w)) ⊆ dom (_status (dev (run es w))).
Proof.
  revert w. induction es as [|e es IH]; intros w; simpl; [done |].
  etrans; [apply status_effect_dom, (step_status e) | apply IH].
Qed.

Lemma step_published_keys (e : event) (w : World) :
  published_keys_cached w → published_keys_cached (step e w).
Proof.
  unfold published_keys_cached. intros Hw.
  pose proof (status_effect_dom w (step e w) (step_status e w)) as Hdom.
  destruct (step_status e w) as [(new & -> & Hnew) _].
  apply Forall_app. split.
  - eapply Forall_impl; [| exact Hw]. intros [d|] Hd; [| done]. set_solver.
  - eapply Forall_impl; [| exact Hnew]. intros [d|] [Hp | Hp]; try done.
    by injection Hp as ->.
Qed.

(** C10.  No sequence of events removes a key from the session's cache.
    Whatever one event publishes is [None] or the entire cache as the event
    leaves it, and every snapshot a session has published since it was made
    has all its keys still in the cache.  [status_updated] merges: a key of
    the update gets the update's value, every other key keeps its own. *)
Theorem status_cache_never_shrinks
    (cfg : ConfigEntry) (es es' : list event) (e : event) (status : dict) :
  let w := run es (boot cfg) in
  dom (_status (dev w)) ⊆ dom (_status (dev (run es' w)))
  ∧ dom (_status (dev w)) ⊆ dom (_status (dev (step e w)))
  ∧ (∃ new, signals (step e w) = signals w ++ new
            ∧ Forall (λ p, p = None ∨ p = Some (_status (dev (step e w)))) new)
  ∧ published_keys_cached w
  ∧ _status (dev (close w)) = _status (dev w)
  ∧ _status (dev (disconnected w)) = _status (dev w)
  ∧ signals (status_updated status w)
    = signals w ++ [Some (_status (dev (status_updated status w)))]
  ∧ ∀ k, _status (dev (status_updated status w)) !! k
         = match status !! k with
           | Some v => Some v
           | None => _status (dev w) !! k
           end.
Proof.
  intros w.
  split; [apply run_status_dom |].
  split; [apply status_effect_dom, step_status |].
  split; [apply (step_status e w) |].
  split.
  { subst w. apply (run_invariant published_keys_cached);
      [apply step_published_keys | by constructor]. }
  split; [by destruct (close_frame w) as (_ & _ & _ & _ & _ & ? & _) |].
  split.
  { unfold disconnected. destruct (negb _); [| done].
    set (w0 := on_dev _ _). by destruct (connect_status w0) as [_ ->]. }
  split; [done |].
  intros k. destruct (status_updated_effect status w) as [-> _].
  destruct (status !! k) as [v|] eqn:Hk.
  - by apply lookup_union_Some_l.
  - by apply lookup_union_r.
Qed.

(** C7.  The disconnection callback always leaves [_interface] at [None]
    and publishes exactly one payload, [None] (which is not the empty
    mapping); it queues nothing and calls nothing on a link.  It then calls
    [connect()] if and only if the device is not passive: for a passive device
    it logs that there is no automatic re-connect and no task is made; for
    any other device the next log record is [connect()]'s own, and a new
    attempt starts unless the session is closing or already holds a task. *)
Theorem disconnected_releases_notifies_reconnects (w : World) :
  let d := dev w in
  let w0 := on_dev (set_interface None)
              (async_dispatcher_send None (logger DebugDisconnected w)) in
  _interface (dev (disconnected w)) = None
  ∧ signals (disconnected w) = signals w ++ [None]
  ∧ (None : option dict) ≠ Some ∅
  ∧ ready (disconnected w) = ready w
  ∧ calls (disconnected w) = calls w
  ∧ disconnected w
    = (if CONF_PASSIVE_DEVICE (_config_entry d)
       then logger DebugNoReconnect w0 else connect w0)
  ∧ (if CONF_PASSIVE_DEVICE (_config_entry d)
     then tasks (disconnected w) = tasks w
          ∧ _connect_task (dev (disconnected w)) = _connect_task d
          ∧ log (disconnected w) = log w ++ [DebugDisconnected; DebugNoReconnect]
     else log (disconnected w)
          = log w ++ [DebugDisconnected;
                      if _is_closing d || truthy (_connect_task d)
                      then DebugAlreadyConnecting (_is_closing d) (_connect_task d) None
                      else DebugConnecting]
          ∧ tasks (disconnected w)
            = if _is_closing d || truthy (_connect_task d) then tasks w
              else tasks w ++ [{| t_stage := Created; t_must_cancel := false |}]).
Proof.
  unfold disconnected. open_world w.
  destruct (CONF_PASSIVE_DEVICE _config_entry0); cbn.
  - rewrite <- app_assoc. done.
  - unfold connect; cbn.
    destruct _is_closing0, _connect_task0; cbn; rewrite <- ?app_assoc; done.
Qed.

(** *** Steps of a task that is not cancelled *)

Lemma task_step_live (tid : task_id) (r : resume) (w : World) (st : stage) :
  tasks w !! tid = Some {| t_stage := st; t_must_cancel := false |} →
  task_step tid r w =
  match st, r with
  | Created, Start seed =>
      let '(backoff, w) := _make_connection_begin seed w in
      set_stage tid (AwaitSleep backoff) w
  | AwaitSleep _, Woken => set_stage tid AwaitOpen (_make_connection_open w)
  | AwaitOpen, Opened l => set_stage tid AwaitStatus (_make_connection_opened l w)
  | AwaitOpen, OpenRaises =>
      set_stage tid Finished (_make_connection_end (_make_connection_except w))
  | AwaitStatus, Fetched status =>
      set_stage tid Finished (_make_connection_end (_make_connection_fetched status w))
  | AwaitStatus, FetchRaises =>
      set_stage tid Finished (_make_connection_end (_make_connection_except w))
  | AwaitSleep _, WokenArgsRaise =>
      set_stage tid Finished (_make_connection_end (_make_connection_args_raise w))
  | AwaitOpen, OpenedDpsRaise l =>
      set_stage tid Finished (_make_connection_end (_make_connection_dps_raise l w))
  | _, _ => w
  end.
Proof.
  intros Ht. unfold task_step. rewrite Ht.
  destruct st, r; reflexivity.
Qed.

(** C5 (as the code has it).  [set_dp] gives its caller [None] in every case,
    also when no link is held and when the link's write raises: the failure
    is a log record, not a result.  It never touches the device's attributes,
    the tasks, the callback queue or the dispatcher.  Without a link nothing
    is called and one error is logged; with a link the write is called exactly
    once, and if it raises one exception record is logged. *)
Theorem set_dp_logs_failure_keeps_state
    (state : value) (dp : Z) (res : write_result) (w : World) :
  let w' := fst (set_dp state dp res w) in
  snd (set_dp state dp res w) = ReturnsNone
  ∧ dev w' = dev w ∧ tasks w' = tasks w ∧ ready w' = ready w
  ∧ signals w' = signals w
  ∧ match _interface (dev w) with
    | None => calls w' = calls w ∧ log w' = log w ++ [ErrorNotConnected]
    | Some l =>
        calls w' = calls w ++ [LinkSetDp l state dp]
        ∧ log w' = log w ++ match res with
                            | WriteOk => []
                            | WriteRaises => [ExceptionSetDp dp state]
                            end
    end.
Proof.
  unfold set_dp. destruct (_interface (dev w)); [destruct res |]; simpl;
    rewrite ?app_nil_r; done.
Qed.

(** C5, counterexample.  On a new session, which holds no link, [set_dp]
    gives its caller the very result it gives after a write that went
    through on a connected session: no failure result reaches the caller. *)
Lemma set_dp_disconnected_returns_none :
  _interface (dev (boot plug)) = None
  ∧ snd (set_dp (VBool true) 1 WriteOk (boot plug)) = ReturnsNone
  ∧ (let w := run (Connect :: attempt_succeeds 0 0 7 {[ "1" := VBool false ]})
                  (boot plug) in
     connected (dev w) = true
     ∧ snd (set_dp (VBool true) 1 WriteOk w)
       = snd (set_dp (VBool true) 1 WriteOk (boot plug)))
  ∧ snd (set_dp (VBool true) 1 WriteOk (boot plug)) ≠ Raises.
Proof. by vm_compute. Qed.

(** *** The initial status fetch *)

Lemma union_absorbs (s c : dict) : s ∪ c = s ↔ dom c ⊆ dom s.
Proof.
  split.
  - intros Heq. rewrite <- Heq, dom_union. set_solver.
  - intros Hsub. apply map_eq. intros k.
    destruct (s !! k) as [v|] eqn:Hk.
    + by apply lookup_union_Some_l.
    + rewrite lookup_union_r by done.
      apply not_elem_of_dom. apply not_elem_of_dom in Hk. set_solver.
Qed.

Lemma fetched_some (tid : task_id) (s : dict) (w : World) :
  tasks w !! tid = Some {| t_stage := AwaitStatus; t_must_cancel := false |} →
  let w' := step (Resume tid (Fetched (Some s))) w in
  _connection_attempts (dev w') = 0
  ∧ _interface (dev w') = _interface (dev w)
  ∧ calls w' = calls w
  ∧ ready w' = ready w
  ∧ _connect_task (dev w') = None
  ∧ _status (dev w') = s ∪ _status (dev w)
  ∧ signals w' = signals w ++ [Some (s ∪ _status (dev w))]
  ∧ tasks w' !! tid = Some {| t_stage := Finished; t_must_cancel := false |}.
Proof.
  intros Ht. simpl. rewrite (task_step_live _ _ _ _ Ht). cbn.
  rewrite list_lookup_insert_eq by (by eapply lookup_lt_Some). done.
Qed.

Lemma failed_step (tid : task_id) (r : resume) (st : stage) (w : World) :
  tasks w !! tid = Some {| t_stage := st; t_must_cancel := false |} →
  (st = AwaitOpen ∧ r = OpenRaises)
  ∨ (st = AwaitStatus ∧ (r = Fetched None ∨ r = FetchRaises)) →
  let w' := step (Resume tid r) w in
  _connection_attempts (dev w') = _connection_attempts (dev w) + 1
  ∧ _interface (dev w') = None
  ∧ calls w' = calls w ++ match _interface (dev w) with
                          | Some l => [LinkClose l]
                          | None => []
                          end
  ∧ ready w' = ready w ++ [CallConnect]
  ∧ _connect_task (dev w') = None
  ∧ _is_closing (dev w') = _is_closing (dev w)
  ∧ _status (dev w') = _status (dev w)
  ∧ signals w' = signals w
  ∧ tasks w' = <[tid := {| t_stage := Finished; t_must_cancel := false |}]> (tasks w).
Proof.
  intros Ht Hcase. simpl. rewrite (task_step_live _ _ _ _ Ht).
  assert (Hgoal :
    let w' := set_stage tid Finished (_make_connection_end (_make_connection_except w)) in
    _connection_attempts (dev w') = _connection_attempts (dev w) + 1
    ∧ _interface (dev w') = None
    ∧ calls w' = calls w ++ match _interface (dev w) with
                            | Some l => [LinkClose l]
                            | None => []
                            end
    ∧ ready w' = ready w ++ [CallConnect]
    ∧ _connect_task (dev w') = None
    ∧ _is_closing (dev w') = _is_closing (dev w)
    ∧ _status (dev w') = _status (dev w)
    ∧ signals w' = signals w
    ∧ tasks w' = <[tid := {| t_stage := Finished; t_must_cancel := false |}]> (tasks w)).
  { unfold _make_connection_except. open_world w.
    destruct _interface0; cbn; rewrite ?app_nil_r; done. }
  destruct Hcase as [[-> ->] | [-> [-> | ->]]]; exact Hgoal.
Qed.

Lemma failing_step (tid : task_id) (r : resume) (st : stage) (w : World) :
  tasks w !! tid = Some {| t_stage := st; t_must_cancel := false |} →
  fails_at st r →
  let w' := step (Resume tid r) w in
  _connection_attempts (dev w') = _connection_attempts (dev w) + 1
  ∧ _interface (dev w') = None
  ∧ ready w' = ready w ++ [CallConnect]
  ∧ _connect_task (dev w') = None
  ∧ _is_closing (dev w') = _is_closing (dev w)
  ∧ _status (dev w') = _status (dev w)
  ∧ signals w' = signals w
  ∧ tasks w' = <[tid := {| t_stage := Finished; t_must_cancel := false |}]> (tasks w).
Proof.
  intros Ht [Hold | [Hold | [[-> [l ->]] | [b [-> ->]]]]].
  - destruct (failed_step tid r st w Ht) as (? & ? & _ & ? & ? & ? & ? & ? & ?);
      [by left | done].
  - destruct (failed_step tid r st w Ht) as (? & ? & _ & ? & ? & ? & ? & ? & ?);
      [by right | done].
  - simpl. rewrite (task_step_live _ _ _ _ Ht).
    unfold _make_connection_dps_raise, _make_connection_except.
    open_world w. done.
  - simpl. rewrite (task_step_live _ _ _ _ Ht).
    unfold _make_connection_args_raise, _make_connection_except.
    open_world w. by destruct _interface0.
Qed.

(** C4 (as the code has it).  Take an attempt that awaits its initial status
    fetch.  If the fetch returns [None], the attempt fails: the counter goes
    up by one, the link (if the session still holds one) is closed and
    [_interface] is [None], one [connect] callback is queued, and nothing is
    published.  If the fetch returns a mapping, the empty one included, the
    attempt succeeds: the counter is 0, the link is kept and not closed,
    nothing is queued, and the merged cache is published. *)
Theorem fetch_none_fails_mapping_succeeds (tid : task_id) (s : dict) (w : World) :
  tasks w !! tid = Some {| t_stage := AwaitStatus; t_must_cancel := false |} →
  let wn := step (Resume tid (Fetched None)) w in
  let ws := step (Resume tid (Fetched (Some s))) w in
  (_connection_attempts (dev wn) = _connection_attempts (dev w) + 1
   ∧ _interface (dev wn) = None
   ∧ calls wn = calls w ++ match _interface (dev w) with
                           | Some l => [LinkClose l]
                           | None => []
                           end
   ∧ ready wn = ready w ++ [CallConnect]
   ∧ _connect_task (dev wn) = None
   ∧ signals wn = signals w)
  ∧ (_connection_attempts (dev ws) = 0
     ∧ _interface (dev ws) = _interface (dev w)
     ∧ calls ws = calls w
     ∧ ready ws = ready w
     ∧ _connect_task (dev ws) = None
     ∧ signals ws = signals w ++ [Some (s ∪ _status (dev w))]).
Proof.
  intros Ht wn ws. split.
  - destruct (failed_step tid (Fetched None) AwaitStatus w Ht)
      as (? & ? & ? & ? & ? & _ & _ & ? & _); [right; eauto |]. done.
  - destruct (fetched_some tid s w Ht) as (? & ? & ? & ? & ? & _ & ? & _). done.
Qed.

Lemma fetch_none_fails_mapping_succeeds_witness :
  let w := run [Connect; Resume 0 (Start 5); Resume 0 Woken; Resume 0 (Opened 7)]
               (boot plug) in
  _connection_attempts (dev (step (Resume 0 (Fetched None)) w)) = 1
  ∧ ready (step (Resume 0 (Fetched None)) w) = [CallConnect]
  ∧ _connection_attempts (dev (step (Resume 0 (Fetched (Some ∅))) w)) = 0.
Proof.
  intros w.
  destruct (fetch_none_fails_mapping_succeeds 0 ∅ w eq_refl)
    as [(Hn & _ & _ & Hq & _) (Hs & _)].
  split; [exact Hn |]. split; [exact Hq | exact Hs].
Defined.

(** C4, counterexample.  After one failed attempt the counter is 1.  The next
    attempt fetches the empty mapping: the counter is reset to 0 instead of
    going up to 2, the link is kept and never closed, no retry is queued,
    and the session counts as connected. *)
Lemma empty_snapshot_is_success :
  let before := run [Connect; Resume 0 (Start 5); Resume 0 Woken; Resume 0 OpenRaises;
                     RunCallback; Resume 1 (Start 5); Resume 1 Woken;
                     Resume 1 (Opened 7)] (boot plug) in
  let after := step (Resume 1 (Fetched (Some ∅))) before in
  _connection_attempts (dev before) = 1
  ∧ _connection_attempts (dev after) = 0
  ∧ _interface (dev after) = Some 7%nat
  ∧ ready after = []
  ∧ calls after = [PytuyaConnect; PytuyaConnect;
                   LinkAddDps 7 (list_to_set ["1"; "2"]); LinkStatus 7]
  ∧ connected (dev after) = true.
Proof. by vm_compute. Qed.

(** C3 (as the code has it).  The disconnection callback leaves the cache as
    it is, for a passive device and for any other.  When, after any further
    events, an attempt fetches the snapshot [s], what is published is [s]
    merged over the cache: it has every key the cache had at the
    disconnection, and it is [s] itself exactly when every cached key is a
    key of [s]. *)
Theorem reconnect_publishes_merged_cache
    (w : World) (es : list event) (tid : task_id) (s : dict) :
  let w1 := run es (disconnected w) in
  tasks w1 !! tid = Some {| t_stage := AwaitStatus; t_must_cancel := false |} →
  let w2 := step (Resume tid (Fetched (Some s))) w1 in
  _status (dev (disconnected w)) = _status (dev w)
  ∧ signals w2 = signals w1 ++ [Some (s ∪ _status (dev w1))]
  ∧ _status (dev w2) = s ∪ _status (dev w1)
  ∧ dom (_status (dev w)) ⊆ dom (s ∪ _status (dev w1))
  ∧ (s ∪ _status (dev w1) = s ↔ dom (_status (dev w1)) ⊆ dom s).
Proof.
  intros w1 Ht w2.
  assert (_status (dev (disconnected w)) = _status (dev w)) as Hd.
  { unfold disconnected. destruct (negb _); [| done].
    set (w0 := on_dev _ _). by destruct (connect_status w0) as [_ ->]. }
  destruct (fetched_some tid s w1 Ht) as (_ & _ & _ & _ & _ & Hst & Hsig & _).
  split; [done |]. split; [done |]. split; [done |].
  split; [| apply union_absorbs].
  pose proof (run_status_dom es (disconnected w)) as Hsub. fold w1 in Hsub.
  rewrite Hd in Hsub. rewrite dom_union. set_solver.
Qed.

Lemma reconnect_publishes_merged_cache_witness :
  let w := run (Connect :: attempt_succeeds 0 0 7 {[ "2" := VStr "5" ]}) (boot plug) in
  let w1 := run [Resume 1 (Start 0); Resume 1 Woken; Resume 1 (Opened 8)]
                (disconnected w) in
  let s : dict := {[ "1" := VStr "on" ]} in
  signals (step (Resume 1 (Fetched (Some s))) w1)
  = signals w1 ++ [Some (s ∪ _status (dev w1))].
Proof.
  intros w w1 s.
  destruct (reconnect_publishes_merged_cache w
              [Resume 1 (Start 0); Resume 1 Woken; Resume 1 (Opened 8)] 1 s eq_refl)
    as (_ & H & _).
  exact H.
Defined.

(** C3, counterexample.  A device that is not passive is connected with the
    snapshot {"2": "5"} and then disconnects: the cache still holds "2".  It
    reconnects and fetches {"1": "on"}: subscribers get {"1": "on", "2": "5"},
    which is not the fetched snapshot. *)
Lemma reconnect_retains_old_keys :
  let w := run (Connect :: attempt_succeeds 0 0 7 {[ "2" := VStr "5" ]}) (boot plug) in
  let wd := disconnected w in
  let w2 := run (attempt_succeeds 1 0 8 {[ "1" := VStr "on" ]}) wd in
  CONF_PASSIVE_DEVICE (_config_entry (dev w)) = false
  ∧ _status (dev wd) = {[ "2" := VStr "5" ]}
  ∧ _status (dev wd) ≠ ∅
  ∧ signals w2 = [Some {[ "2" := VStr "5" ]}; None;
                  Some {[ "1" := VStr "on"; "2" := VStr "5" ]}]
  ∧ signals w2 !! 2%nat ≠ Some (Some {[ "1" := VStr "on" ]}).
Proof. by vm_compute. Qed.

(** *** Attempts, one after the other *)

Lemma at_stage_set (tid : task_id) (st st' : stage) (w w' : World) :
  at_stage tid st w →
  tasks w' = tasks w → _connect_task (dev w') = _connect_task (dev w) →
  _is_closing (dev w') = _is_closing (dev w) → ready w' = ready w →
  at_stage tid st' (set_stage tid st' w').
Proof.
  intros (Ht & Hl & Hh & Hc & Hq) Hts Hh' Hc' Hq'.
  unfold at_stage. cbn. rewrite Hts, length_insert.
  rewrite list_lookup_insert_eq by lia. rewrite Hh', Hc', Hq'. done.
Qed.

Lemma start_step (tid : task_id) (seed : Z) (w : World) :
  at_stage tid Created w →
  let w' := step (Resume tid (Start seed)) w in
  at_stage tid (AwaitSleep (backoff_of (_connection_attempts (dev w)) seed)) w'
  ∧ dev w' = dev w ∧ signals w' = signals w.
Proof.
  intros Hw. pose proof Hw as (Ht & _). simpl.
  rewrite (task_step_live _ _ _ _ Ht). cbn.
  split; [by eapply at_stage_set | done].
Qed.

Lemma woken_step (tid : task_id) (backoff : Z) (w : World) :
  at_stage tid (AwaitSleep backoff) w →
  let w' := step (Resume tid Woken) w in
  at_stage tid AwaitOpen w' ∧ dev w' = dev w ∧ signals w' = signals w.
Proof.
  intros Hw. pose proof Hw as (Ht & _). simpl.
  rewrite (task_step_live _ _ _ _ Ht). cbn.
  split; [by eapply at_stage_set | done].
Qed.

Lemma opened_step (tid : task_id) (l : link) (w : World) :
  at_stage tid AwaitOpen w →
  let w' := step (Resume tid (Opened l)) w in
  at_stage tid AwaitStatus w' ∧ dev w' = set_interface (Some l) (dev w) ∧ signals w' = signals w.
Proof.
  intros Hw. pose proof Hw as (Ht & _). simpl.
  rewrite (task_step_live _ _ _ _ Ht). cbn.
  split; [by eapply at_stage_set | done].
Qed.

Lemma attempt_fails_armed (tid : task_id) (seed : Z) (f : failure) (w : World) :
  armed tid w →
  let w' := run (attempt_fails tid seed f) w in
  armed (S tid) w'
  ∧ _connection_attempts (dev w') = _connection_attempts (dev w) + 1.
Proof.
  intros [Hw Hi]. unfold attempt_fails.
  rewrite !run_app. cbn [run].
  destruct (start_step tid seed w Hw) as (H1 & D1 & _).
  set (w1 := step (Resume tid (Start seed)) w) in *.
  assert (∃ w3 st r,
            run match f with
                | OpenFails => [Resume tid OpenRaises]
                | StatusNone l => [Resume tid (Opened l); Resume tid (Fetched None)]
                | StatusFails l => [Resume tid (Opened l); Resume tid FetchRaises]
                | ArgsFail => []
                | DpsFails l => [Resume tid (OpenedDpsRaise l)]
                end
                (step (Resume tid match f with
                                  | ArgsFail => WokenArgsRaise
                                  | _ => Woken
                                  end) w1)
            = step (Resume tid r) w3
            ∧ at_stage tid st w3
            ∧ _connection_attempts (dev w3) = _connection_attempts (dev w)
            ∧ fails_at st r)
    as (w3 & st & r & -> & H3 & A3 & Hcase).
  { destruct (woken_step tid _ w1 H1) as (H2 & D2 & _).
    set (w2 := step (Resume tid Woken) w1) in *.
    destruct f as [|l|l| |l]; cbn [run].
    - exists w2, AwaitOpen, OpenRaises.
      split; [done |]. split; [done |]. split; [by rewrite D2, D1 |]. by left.
    - destruct (opened_step tid l w2 H2) as (H3 & D3 & _).
      exists (step (Resume tid (Opened l)) w2), AwaitStatus, (Fetched None).
      split; [done |]. split; [done |]. split; [by rewrite D3, D2, D1 |].
      right; left. split; [done | by left].
    - destruct (opened_step tid l w2 H2) as (H3 & D3 & _).
      exists (step (Resume tid (Opened l)) w2), AwaitStatus, FetchRaises.
      split; [done |]. split; [done |]. split; [by rewrite D3, D2, D1 |].
      right; left. split; [done | by right].
    - eexists w1, _, WokenArgsRaise.
      split; [done |]. split; [exact H1 |]. split; [by rewrite D1 |].
      right; right; right. eauto.
    - exists w2, AwaitOpen, (OpenedDpsRaise l).
      split; [done |]. split; [done |]. split; [by rewrite D2, D1 |].
      right; right; left. eauto. }
  destruct H3 as (Ht3 & Hl3 & _ & Hc3 & Hq3).
  destruct (failing_step tid r st w3 Ht3 Hcase)
    as (Ha & Hi4 & Hq4 & Hh4 & Hc4 & _ & _ & Hts4).
  set (w4 := step (Resume tid r) w3) in *.
  simpl. unfold run_callback. rewrite Hq4, Hq3. simpl.
  destruct (connect_idle (set_ready [] w4)) as (Hts & Hd & Hq & _).
  { unfold busy. simpl. by rewrite Hc4, Hc3, Hh4, Hi4. }
  unfold armed, at_stage. rewrite Hts, Hd, Hq. simpl.
  rewrite Hts4, length_app, length_insert, Hl3. simpl.
  rewrite Hc4, Hc3, Hi4, Ha, A3.
  repeat split; try done; try lia.
  apply lookup_app_Some. right. rewrite length_insert, Hl3.
  split; [lia |]. by rewrite Nat.sub_diag.
Qed.

Lemma failures_armed (fs : list (Z * failure)) (tid : task_id) (w : World) :
  armed tid w →
  let w' := run (failures tid fs) w in
  armed (tid + length fs) w'
  ∧ _connection_attempts (dev w')
    = _connection_attempts (dev w) + Z.of_nat (length fs).
Proof.
  revert tid w. induction fs as [|[seed f] fs IH]; intros tid w Hw;
    cbn [failures length run].
  - rewrite Nat.add_0_r. split; [done | lia].
  - rewrite run_app.
    destruct (attempt_fails_armed tid seed f w Hw) as [H1 A1].
    destruct (IH (S tid) _ H1) as [H2 A2].
    replace (tid + S (length fs))%nat with (S tid + length fs)%nat by lia.
    split; [exact H2 |]. rewrite A2, A1. lia.
Qed.

Lemma attempt_succeeds_armed
    (tid : task_id) (seed : Z) (l : link) (s : dict) (w : World) :
  armed tid w →
  let w' := run (attempt_succeeds tid seed l s) w in
  _connection_attempts (dev w') = 0
  ∧ connected (dev w') = true
  ∧ _interface (dev w') = Some l
  ∧ signals w' = signals w ++ [Some (s ∪ _status (dev w))].
Proof.
  intros [Hw Hi]. unfold attempt_succeeds. cbn [run].
  destruct (start_step tid seed w Hw) as (H1 & D1 & S1).
  set (w1 := step (Resume tid (Start seed)) w) in *.
  destruct (woken_step tid _ w1 H1) as (H2 & D2 & S2).
  set (w2 := step (Resume tid Woken) w1) in *.
  destruct (opened_step tid l w2 H2) as (H3 & D3 & S3).
  set (w3 := step (Resume tid (Opened l)) w2) in *.
  destruct H3 as (Ht3 & _).
  destruct (fetched_some tid s w3 Ht3) as (Ha & Hi4 & _ & _ & Hh4 & _ & Hsig & _).
  unfold connected. rewrite Ha, Hi4, Hh4, Hsig, S3, S2, S1, D3, D2, D1. done.
Qed.

Lemma connect_boot_armed (cfg : ConfigEntry) : armed 0 (connect (boot cfg)).
Proof. by repeat split. Qed.

(** C9.  Every step that ends an attempt with success sets the counter to
    0, and every step that ends it with a failure (the arguments of
    [pytuya.connect] raise, the opening of the link raises, the registration
    of the datapoints raises, the status fetch returns [None], the status
    fetch raises) adds one to it.  So, from a session whose attempt [tid] has
    just been started, [k] failed attempts in a row, each followed by the
    queued retry, leave the counter [k] higher and the next attempt started;
    an attempt that then succeeds leaves the counter at 0 and the session
    connected.  For a new session the counter after [connect()] and [k]
    failed attempts is [k]. *)
Theorem attempts_count_failures
    (tid : task_id) (fs : list (Z * failure)) (seed : Z) (l : link) (s : dict)
    (w : World) :
  armed tid w →
  let wk := run (failures tid fs) w in
  let ws := run (attempt_succeeds (tid + length fs) seed l s) wk in
  _connection_attempts (dev wk)
  = _connection_attempts (dev w) + Z.of_nat (length fs)
  ∧ armed (tid + length fs) wk
  ∧ _connection_attempts (dev ws) = 0
  ∧ connected (dev ws) = true
  ∧ (∀ cfg, _connection_attempts (dev (run (Connect :: failures 0 fs) (boot cfg)))
            = Z.of_nat (length fs))
  ∧ (∀ w0 t0 s0,
       tasks w0 !! t0 = Some {| t_stage := AwaitStatus; t_must_cancel := false |} →
       _connection_attempts (dev (step (Resume t0 (Fetched (Some s0))) w0)) = 0)
  ∧ (∀ w0 t0 st r,
       tasks w0 !! t0 = Some {| t_stage := st; t_must_cancel := false |} →
       (st = AwaitOpen ∧ r = OpenRaises)
       ∨ (st = AwaitStatus ∧ (r = Fetched None ∨ r = FetchRaises))
       ∨ (st = AwaitOpen ∧ ∃ l, r = OpenedDpsRaise l)
       ∨ (∃ backoff, st = AwaitSleep backoff ∧ r = WokenArgsRaise) →
       _connection_attempts (dev (step (Resume t0 r) w0))
       = _connection_attempts (dev w0) + 1).
Proof.
  intros Hw wk ws.
  destruct (failures_armed fs tid w Hw) as [Hk Ak]. fold wk in Hk, Ak.
  destruct (attempt_succeeds_armed (tid + length fs) seed l s wk Hk)
    as (A0 & Hc & _).
  split; [done |]. split; [done |]. split; [done |]. split; [done |].
  split; [| split].
  - intros cfg. cbn [run step].
    destruct (failures_armed fs 0 _ (connect_boot_armed cfg)) as [_ ->]. done.
  - intros w0 t0 s0 Ht. by destruct (fetched_some t0 s0 w0 Ht) as (? & _).
  - intros w0 t0 st r Ht Hcase.
    by destruct (failing_step t0 r st w0 Ht Hcase) as (? & _).
Qed.

Lemma attempts_count_failures_witness :
  let w := connect (boot plug) in
  let fs := [(1, OpenFails); (6, StatusNone 7); (3, StatusFails 8)] in
  armed 0 w
  ∧ _connection_attempts (dev (run (failures 0 fs) w)) = 3
  ∧ _connection_attempts
      (dev (run (attempt_succeeds 3 9 4 {[ "1" := VStr "true"; "2" := VStr "10" ]})
                (run (failures 0 fs) w))) = 0.
Proof.
  intros w fs.
  assert (armed 0 w) as Hw by (by repeat split).
  destruct (attempts_count_failures 0 fs 9 4
              {[ "1" := VStr "true"; "2" := VStr "10" ]} w Hw)
    as (Hk & _ & H0 & _).
  split; [exact Hw |]. split; [exact Hk | exact H0].
Defined.

(** ** Further properties of the module *)

(** *** Set-up helpers *)

(** X1.  [get_entity_config] returns the first entity whose id equals
    [dp_id]: every entity before it has another id.  It raises the
    missing-entity exception exactly when every entity has another id, and
    [KeyError] when it meets an entity without an id before any match. *)
Theorem get_entity_config_first_match
    (CONF_ID : string) (entities : list entity_config) (dp_id : pyobj) :
  match get_entity_config CONF_ID entities dp_id with
  | Return e =>
      ∃ pre post id,
        entities = pre ++ e :: post ∧ e !! CONF_ID = Some id
        ∧ py_eq id dp_id = true ∧ Forall (other_id CONF_ID dp_id) pre
  | Raise MissingEntityConfig => Forall (other_id CONF_ID dp_id) entities
  | Raise KeyError =>
      ∃ pre e post,
        entities = pre ++ e :: post ∧ e !! CONF_ID = None
        ∧ Forall (other_id CONF_ID dp_id) pre
  | Raise _ => False
  end.
Proof.
  induction entities as [|e rest IH]; simpl; [by constructor |].
  destruct (e !! CONF_ID) as [id|] eqn:Hid.
  - destruct (py_eq id dp_id) eqn:Heq.
    + exists [], rest, id. by repeat split.
    + assert (other_id CONF_ID dp_id e) as Hother by (by exists id).
      destruct (get_entity_config CONF_ID rest dp_id) as [e'|[| | |]].
      * destruct IH as (pre & post & id' & -> & ? & ? & ?).
        exists (e :: pre), post, id'. repeat split; try done. by constructor.
      * destruct IH as (pre & e' & post & -> & ? & ?).
        exists (e :: pre), e', post. repeat split; try done. by constructor.
      * by constructor.
      * done.
      * done.
  - exists [], e, rest. by repeat split.
Qed.

Lemma entities_to_setup_filter
    (CONF_PLATFORM : string) (entities : list entity_config) (platform : string) :
  Forall (λ e, is_Some (e !! CONF_PLATFORM)) entities →
  entities_to_setup CONF_PLATFORM entities platform
  = Return (filter (λ e, of_platform CONF_PLATFORM platform e = true) entities).
Proof.
  induction 1 as [|e rest [p Hp] _ IH]; cbn [entities_to_setup]; [done |].
  rewrite Hp, IH, filter_cons.
  assert (of_platform CONF_PLATFORM platform e = py_eq p (Some (VStr platform)))
    as -> by (unfold of_platform; by rewrite Hp).
  by destruct (py_eq p (Some (VStr platform))).
Qed.

Lemma entities_to_setup_key_error
    (CONF_PLATFORM : string) (entities : list entity_config) (platform : string) :
  ¬ Forall (λ e, is_Some (e !! CONF_PLATFORM)) entities →
  entities_to_setup CONF_PLATFORM entities platform = Raise KeyError.
Proof.
  induction entities as [|e rest IH]; intros Hnot; simpl.
  - destruct Hnot. constructor.
  - destruct (e !! CONF_PLATFORM) as [p|] eqn:Hp; [| done].
    rewrite IH; [done |]. intros Hrest. apply Hnot. constructor; [by eexists | done].
Qed.

(** X2.  When every entity names its platform, [prepare_setup_entities]
    returns the entities of the platform in configuration order with the
    registered device; it returns [(None, None)] when the platform has no
    entity, and then the device registry is not consulted; with entities but
    no registered device it raises [KeyError].  When some entity does not
    name its platform it raises [KeyError]. *)
Theorem prepare_setup_entities_filters
    (CONF_PLATFORM : string) (T : Type) (registered : option T)
    (entities : list entity_config) (platform : string) :
  let mine := filter (λ e, of_platform CONF_PLATFORM platform e = true) entities in
  prepare_setup_entities CONF_PLATFORM registered entities platform
  = if decide (Forall (λ e, is_Some (e !! CONF_PLATFORM)) entities)
    then match mine, registered with
         | [], _ => Return None
         | _ :: _, Some device => Return (Some (device, mine))
         | _ :: _, None => Raise KeyError
         end
    else Raise KeyError.
Proof.
  intros mine. unfold prepare_setup_entities.
  destruct (decide _) as [Hall | Hnot].
  - rewrite (entities_to_setup_filter _ _ _ Hall). fold mine.
    destruct mine; [done |]. by destruct registered.
  - by rewrite entities_to_setup_key_error.
Qed.

(** *** The wait before an attempt, in the states a session reaches *)

(** X3.  In every state a session can reach the attempt counter is not
    negative, so [randrange] gets a positive bound and the wait computed at
    the start of an attempt is at least 0, at most 300 and below
    [2 ** attempts]; the first attempt of a new session waits 0. *)
Theorem wait_bounded_in_every_state
    (cfg : ConfigEntry) (es : list event) (seed : Z) :
  let w := run es (boot cfg) in
  0 ≤ _connection_attempts (dev w)
  ∧ 0 < 2 ^ _connection_attempts (dev w)
  ∧ 0 ≤ fst (_make_connection_begin seed w) ≤ 300
  ∧ fst (_make_connection_begin seed w) < 2 ^ _connection_attempts (dev w)
  ∧ fst (_make_connection_begin seed (connect (boot cfg))) = 0.
Proof.
  intros w. pose proof (reachable_attempts_nonneg cfg es) as Hn. fold w in Hn.
  assert (0 < 2 ^ _connection_attempts (dev w)) as Hpow
    by (by apply Z.pow_pos_nonneg).
  pose proof (randrange_range seed _ Hpow) as Hr.
  split; [done |]. split; [done |].
  cbn [_make_connection_begin fst]. unfold backoff_of, BACKOFF_TIME_UPPER_LIMIT.
  split; [lia |]. split; [lia |].
  cbn. unfold randrange. by rewrite Z.mod_1_r.
Qed.

Lemma backoff_of_bounds (n seed : Z) :
  0 ≤ n → 0 ≤ backoff_of n seed ≤ 300 ∧ backoff_of n seed < 2 ^ n.
Proof.
  intros Hn. assert (0 < 2 ^ n) as Hpow by (by apply Z.pow_pos_nonneg).
  pose proof (randrange_range seed _ Hpow).
  unfold backoff_of, BACKOFF_TIME_UPPER_LIMIT. lia.
Qed.

(** X4.  After [k] failed attempts in a row, the attempt that the retry
    started waits [min(r, 300)] seconds for a draw [r] below
    [2 ** (n + k)], where [n] was the counter before them: the window of the
    wait doubles with every failure until the cap of 300 takes over. *)
Theorem wait_after_failures
    (tid : task_id) (fs : list (Z * failure)) (seed : Z) (w : World) :
  armed tid w →
  0 ≤ _connection_attempts (dev w) →
  let k := length fs in
  let wk := run (failures tid fs) w in
  let w' := step (Resume (tid + k) (Start seed)) wk in
  let b := backoff_of (_connection_attempts (dev w) + Z.of_nat k) seed in
  tasks w' !! (tid + k)%nat
  = Some {| t_stage := AwaitSleep b; t_must_cancel := false |}
  ∧ log w' = log wk ++ [DebugWaiting b]
  ∧ 0 ≤ b ≤ 300
  ∧ b < 2 ^ (_connection_attempts (dev w) + Z.of_nat k).
Proof.
  intros Hw Hn k wk w' b.
  destruct (failures_armed fs tid w Hw) as [[Hk _] Ak]. fold wk k in Hk, Ak.
  destruct (start_step (tid + k) seed wk Hk) as ((Ht & _) & _ & _).
  fold w' in Ht. rewrite Ak in Ht. fold b in Ht.
  split; [done |]. split.
  - subst w'. cbn [step]. destruct Hk as (Hl & _).
    rewrite (task_step_live _ _ _ _ Hl). cbn. by rewrite Ak.
  - apply backoff_of_bounds. lia.
Qed.

Lemma wait_after_failures_witness :
  let w := connect (boot plug) in
  let fs := [(1, OpenFails); (6, StatusNone 7); (3, StatusFails 8)] in
  let w' := step (Resume 3 (Start 13)) (run (failures 0 fs) w) in
  tasks w' !! 3%nat = Some {| t_stage := AwaitSleep 5; t_must_cancel := false |}.
Proof.
  intros w fs w'.
  assert (armed 0 w) as Hw by (by repeat split).
  assert (0 ≤ _connection_attempts (dev w)) as Hn by (by vm_compute).
  destruct (wait_after_failures 0 fs 13 w Hw Hn) as (H & _).
  exact H.
Defined.

(** *** What [connected] tells *)

Lemma connect_handle_live (w : World) : handle_live w → handle_live (connect w).
Proof.
  intros [Hh Hc]. destruct (busy (dev w)) eqn:Hb.
  - destruct (connect_busy w Hb) as (Hd & Ht & _).
    split; [intros tid | intros i t]; rewrite Hd, Ht; eauto.
  - destruct (connect_idle w Hb) as (Ht & Hd & _).
    split; [intros tid | intros i t]; rewrite Hd, Ht; simpl.
    + intros [= <-]. right.
      exists {| t_stage := Created; t_must_cancel := false |}. split; [| done].
      apply lookup_app_Some. right. split; [lia |]. by rewrite Nat.sub_diag.
    + intros Hi Hm. apply lookup_app_Some in Hi as [Hi | [_ Hi]]; [eauto |].
      apply list_lookup_singleton_Some in Hi as [_ <-]. done.
Qed.

Lemma task_step_handle_live (tid : task_id) (r : resume) (w : World) :
  handle_live w → handle_live (task_step tid r w).
Proof.
  intros [Hh Hc]. unfold task_step.
  destruct (tasks w !! tid) as [t|] eqn:Ht; [| done].
  destruct (task_done t) eqn:Hdone; [done |].
  assert (tid < length (tasks w))%nat as Hlt by (by eapply lookup_lt_Some).
  destruct (t_must_cancel t) eqn:Hm.
  { pose proof (Hc tid t Ht Hm) as Hclosing. split.
    - intros tid' _. by left.
    - intros i t' _ _. done. }
  assert (Hstay : ∀ st w',
    task_done {| t_stage := st; t_must_cancel := false |} = false →
    tasks w' = tasks w → _connect_task (dev w') = _connect_task (dev w) →
    _is_closing (dev w') = _is_closing (dev w) →
    handle_live (set_stage tid st w')).
  { intros st w' Hlive Hts Hd Hcl. split; cbn; rewrite ?Hts, ?Hd, ?Hcl.
    - intros tid' Htid'. destruct (Hh tid' Htid') as [? | (t' & Ht' & Hl')]; [by left |].
      right. destruct (decide (tid' = tid)) as [->|Hne].
      + rewrite list_lookup_insert_eq by done. eauto.
      + rewrite list_lookup_insert_ne by done. eauto.
    - intros i t' Hi Hmc. destruct (decide (i = tid)) as [->|Hne].
      + rewrite list_lookup_insert_eq in Hi by done. by injection Hi as <-.
      + rewrite list_lookup_insert_ne in Hi by done. eauto. }
  assert (Hend : ∀ w',
    tasks w' = tasks w → _connect_task (dev w') = None →
    _is_closing (dev w') = _is_closing (dev w) →
    handle_live (set_stage tid Finished w')).
  { intros w' Hts Hd Hcl. split; cbn; rewrite ?Hts, ?Hd, ?Hcl; [done |].
    intros i t' Hi Hmc. destruct (decide (i = tid)) as [->|Hne].
    + rewrite list_lookup_insert_eq in Hi by done. by injection Hi as <-.
    + rewrite list_lookup_insert_ne in Hi by done. eauto. }
  pose proof (except_frame w) as (He1 & _ & He3 & _).
  pose proof (args_raise_frame w) as (Ha1 & _ & Ha3 & _).
  destruct (t_stage t), r as [| |l| |status| | |l]; try done;
    try (by apply Hstay); try (by apply Hend).
  destruct (fetched_frame status w) as (Hf1 & _ & Hf3 & _). by apply Hend.
Qed.

Lemma step_handle_live (e : event) (w : World) :
  handle_live w → handle_live (step e w).
Proof.
  intros Hw. destruct e; unfold step.
  - by apply connect_handle_live.
  - destruct (close_frame w) as (_ & Hc & _). split; [by left | done].
  - unfold set_dp. destruct (_interface (dev w)); [destruct res |]; exact Hw.
  - exact Hw.
  - unfold disconnected.
    destruct (negb _); [apply connect_handle_live |]; exact Hw.
  - unfold run_callback. destruct (ready w) as [|[] q]; [done |].
    apply connect_handle_live. exact Hw.
  - by apply task_step_handle_live.
Qed.

Lemma reachable_handle_live (cfg : ConfigEntry) (es : list event) :
  handle_live (run es (boot cfg)).
Proof.
  apply run_invariant; [apply step_handle_live |].
  split; [done |]. intros i t Hi. simpl in Hi. by rewrite lookup_nil in Hi.
Qed.

(** X5.  In every state a session can reach: when [connected] is true, a
    link is held and no attempt is in flight; when it is false, the session
    is closing, or holds no link, or an attempt is in flight.  So during an
    attempt [connected] is false, also once the link has been assigned and
    the initial status is being fetched. *)
Theorem connected_iff_link_and_idle (cfg : ConfigEntry) (es : list event) :
  let w := run es (boot cfg) in
  if connected (dev w)
  then is_Some (_interface (dev w)) ∧ in_flight w = []
  else _is_closing (dev w) = true ∨ _interface (dev w) = None ∨ in_flight w ≠ [].
Proof.
  intros w. pose proof (reachable_single_flight cfg es) as Hsf.
  pose proof (reachable_handle_live cfg es) as [Hh _]. fold w in Hsf, Hh.
  unfold connected.
  destruct (_interface (dev w)) as [l|]; simpl; [| by right; left].
  destruct (_connect_task (dev w)) as [tid|] eqn:Hct; simpl.
  - destruct (Hh tid eq_refl) as [? | (t & Ht & Hlive)]; [by left |].
    right; right. intros Hidle.
    assert (t ∈ in_flight w) as Hin.
    { apply list_elem_of_filter. split; [done |]. by eapply list_elem_of_lookup_2. }
    rewrite Hidle in Hin. by apply elem_of_nil in Hin.
  - split; [eauto | by apply single_flight_idle].
Qed.

(** *** A session that was closed *)

Lemma frozen_refl_on (w w' : World) :
  dev w' = dev w → calls w' = calls w → ready w' = ready w → frozen w w'.
Proof. intros Hd Hc Hr. unfold frozen, opens. rewrite Hd, Hc, Hr. eauto. Qed.

Lemma frozen_trans (w1 w2 w3 : World) : frozen w1 w2 → frozen w2 w3 → frozen w1 w3.
Proof.
  intros (A1 & O1 & R1 & I1) (A2 & O2 & R2 & I2).
  split; [congruence |]. split; [congruence |]. split; [lia |].
  destruct I2 as [I2 | I2]; [rewrite I2; exact I1 | by right].
Qed.

Lemma cancel_flags (tid : task_id) (t' : task) (w : World) :
  tasks (cancel tid w) !! tid = Some t' → task_done t' = false →
  t_must_cancel t' = true.
Proof.
  unfold cancel. destruct (tasks w !! tid) as [t|] eqn:Ht; [| by rewrite Ht].
  destruct (task_done t) eqn:Hd.
  - rewrite Ht. intros [= <-]. congruence.
  - simpl. rewrite list_lookup_insert_eq by (by eapply lookup_lt_Some).
    by intros [= <-].
Qed.

Lemma cancel_other (tid i : task_id) (w : World) :
  i ≠ tid → tasks (cancel tid w) !! i = tasks w !! i.
Proof.
  intros Hne. unfold cancel. destruct (tasks w !! tid) as [t|]; [| done].
  destruct (task_done t); [done |]. simpl. by rewrite list_lookup_insert_ne.
Qed.

Lemma cancel_flagged (tid i : task_id) (t' : task) (w : World) :
  tasks (cancel tid w) !! i = Some t' →
  t_must_cancel t' = true
  ∨ tasks w !! i = Some t'.
Proof.
  intros Hi. destruct (decide (i = tid)) as [->|Hne].
  - destruct (task_done t') eqn:Hd; [| left; by eapply cancel_flags].
    right. unfold cancel in Hi. destruct (tasks w !! tid) as [t|] eqn:Ht;
      [| simpl in Hi; congruence].
    destruct (task_done t) eqn:Hdt; [simpl in Hi; congruence |]. simpl in Hi.
    rewrite list_lookup_insert_eq in Hi by (by eapply lookup_lt_Some).
    injection Hi as <-. unfold task_done in *. simpl in Hd. congruence.
  - right. by rewrite cancel_other in Hi.
Qed.

Lemma close_tasks (w : World) :
  tasks (close w)
  = match _connect_task (dev w) with
    | Some tid => tasks (cancel tid (on_dev (set_is_closing true) w))
    | None => tasks w
    end.
Proof.
  unfold close. set (w1 := on_dev (set_is_closing true) w).
  change (_connect_task (dev w1)) with (_connect_task (dev w)).
  destruct (_connect_task (dev w)) as [tid|].
  - by destruct (_interface (dev (cancel tid w1))).
  - by destruct (_interface (dev w1)).
Qed.

Lemma close_shut (w : World) : single_flight w → shut (close w).
Proof.
  intros Hsf. destruct (close_frame w) as (_ & Hc & _). split; [done |].
  intros t' Hin Hlive. apply list_elem_of_lookup in Hin as [i Hi].
  rewrite close_tasks in Hi.
  destruct (_connect_task (dev w)) as [tid|] eqn:Hh.
  - destruct (decide (i = tid)) as [->|Hne]; [by eapply cancel_flags |].
    rewrite cancel_other in Hi by done.
    pose proof (Hsf i t' Hi Hlive). congruence.
  - pose proof (Hsf i t' Hi Hlive). congruence.
Qed.

Lemma opens_call (c : link_call) (w : World) :
  opens (call c w) = (opens w + if is_open c then 1 else 0)%nat.
Proof.
  unfold opens. simpl. rewrite list.filter_app, length_app. f_equal.
  by destruct c.
Qed.

Lemma call_frozen (c : link_call) (w : World) :
  is_open c = false → frozen w (call c w).
Proof.
  intros Hc. split; [done |]. split; [| split; [done | by left]].
  rewrite opens_call, Hc. lia.
Qed.

Lemma close_frozen (w : World) : frozen w (close w).
Proof.
  destruct (close_frame w) as (_ & _ & _ & Hi & Ha & _ & _ & _ & Hr).
  split; [done |]. split; [| split; [by rewrite Hr | by left]].
  unfold close. set (w1 := on_dev (set_is_closing true) w).
  assert (∀ w2, calls w2 = calls w →
            opens (match _interface (dev w2) with
                   | Some l => call (LinkClose l) w2
                   | None => w2
                   end) = opens w) as Hop.
  { intros w2 Hc. destruct (_interface (dev w2)).
    - rewrite opens_call. unfold opens. rewrite Hc. simpl. lia.
    - unfold opens. by rewrite Hc. }
  destruct (_connect_task (dev w1)) as [tid|]; apply Hop; [| done].
  by destruct (cancel_frame tid w1) as (_ & _ & _ & -> & _).
Qed.

Lemma step_shut (e : event) (w : World) :
  shut w → shut (step e w) ∧ frozen w (step e w).
Proof.
  intros [Hc Hall].
  assert (Hkeep : ∀ w', tasks w' = tasks w →
            _is_closing (dev w') = _is_closing (dev w) → shut w').
  { intros w' Ht Hcl. split; [congruence | by rewrite Ht]. }
  assert (Hconn : ∀ w0, tasks w0 = tasks w →
            _is_closing (dev w0) = _is_closing (dev w) →
            shut (connect w0) ∧ frozen w0 (connect w0)).
  { intros w0 Ht Hcl. destruct (connect_busy w0) as (Hd & Hts & Hr & _ & Hcs).
    - unfold busy. by rewrite Hcl, Hc.
    - split; [apply Hkeep; congruence | by apply frozen_refl_on]. }
  destruct e; unfold step.
  - by apply Hconn.
  - split; [| apply close_frozen].
    destruct (close_frame w) as (_ & Hc' & _). split; [done |].
    intros t' Hin Hlive. apply list_elem_of_lookup in Hin as [i Hi].
    rewrite close_tasks in Hi.
    destruct (_connect_task (dev w)) as [tid|].
    + apply cancel_flagged in Hi as [? | Hi]; [done |].
      apply Hall; [by eapply list_elem_of_lookup_2 | done].
    + apply Hall; [by eapply list_elem_of_lookup_2 | done].
  - unfold set_dp. destruct (_interface (dev w)) as [l|]; [destruct res |];
      cbn [fst]; (split; [by apply Hkeep |]).
    + by apply call_frozen.
    + eapply frozen_trans; [by apply (call_frozen (LinkSetDp l state dp)) |].
      by apply frozen_refl_on.
    + by apply frozen_refl_on.
  - split; [by apply Hkeep |]. by repeat split; eauto.
  - unfold disconnected. set (w0 := on_dev (set_interface None) _).
    assert (frozen w w0) as H0 by (repeat split; eauto).
    destruct (negb _).
    + destruct (Hconn w0) as [Hs Hf]; [done | done |].
      split; [done | by eapply frozen_trans].
    + split; [by apply Hkeep |]. eapply frozen_trans; [exact H0 |].
      by apply frozen_refl_on.
  - unfold run_callback. destruct (ready w) as [|[] q] eqn:Hq.
    + split; [by apply Hkeep | by apply frozen_refl_on].
    + destruct (Hconn (set_ready q w)) as [Hs Hf]; [done | done |].
      split; [done |]. eapply frozen_trans; [| exact Hf].
      split; [done |]. split; [done |]. split; [| by left].
      simpl. rewrite Hq. simpl. lia.
  - unfold task_step. destruct (tasks w !! tid) as [t|] eqn:Ht;
      [| split; [by apply Hkeep | by apply frozen_refl_on]].
    destruct (task_done t) eqn:Hd;
      [split; [by apply Hkeep | by apply frozen_refl_on] |].
    rewrite (Hall t); [| by eapply list_elem_of_lookup_2 | done].
    split; [| by apply frozen_refl_on].
    split; [done |]. intros t' Hin Hlive. simpl in Hin.
    apply list_elem_of_lookup in Hin as [i Hi].
    destruct (decide (i = tid)) as [->|Hne].
    + rewrite list_lookup_insert_eq in Hi by (by eapply lookup_lt_Some).
      by injection Hi as <-.
    + rewrite list_lookup_insert_ne in Hi by done.
      apply Hall; [by eapply list_elem_of_lookup_2 | done].
Qed.

Lemma run_shut (es : list event) (w : World) : shut w → frozen w (run es w).
Proof.
  revert w. induction es as [|e es IH]; intros w Hw; simpl.
  - by apply frozen_refl_on.
  - destruct (step_shut e w Hw) as [Hs Hf].
    eapply frozen_trans; [exact Hf | by apply IH].
Qed.

(** *** The handle of a session that was closed *)








(** X6.  Once [close()] has been called on a session, whatever happens next
    (task steps, queued retries, link callbacks, writes, calls of [connect()]
    and [close()]): [pytuya.connect] is never called again, the attempt
    counter does not move, nothing more is queued on the loop, and the link
    held is the one held at [close()] or none. *)
Theorem closed_session_opens_no_link (cfg : ConfigEntry) (es es' : list event) :
  let w0 := run es (boot cfg) in
  let w := run es' (close w0) in
  opens w = opens w0
  ∧ _connection_attempts (dev w) = _connection_attempts (dev w0)
  ∧ (length (ready w) ≤ length (ready w0))%nat
  ∧ (_interface (dev w) = _interface (dev w0) ∨ _interface (dev w) = None).
Proof.
  intros w0 w.
  pose proof (close_shut w0 (reachable_single_flight cfg es)) as Hshut.
  pose proof (frozen_trans _ _ _ (close_frozen w0) (run_shut es' _ Hshut))
    as (Ha & Ho & Hr & Hi).
  done.
Qed.

(** *** The cache and what subscribers were sent *)

Lemma task_step_publishes (tid : task_id) (r : resume) (w : World) :
  publishes w (task_step tid r w).
Proof.
  unfold task_step. destruct (tasks w !! tid) as [t|]; [| by left].
  destruct (task_done t); [by left |].
  destruct (t_must_cancel t); [by left |].
  pose proof (except_frame w) as (_ & _ & _ & He4 & He5 & _).
  pose proof (args_raise_frame w) as (_ & _ & _ & Ha4 & Ha5 & _).
  destruct (t_stage t), r as [| |l| |[s|]| | |l]; try (by left).
  by right; right.
Qed.

Lemma step_publishes (e : event) (w : World) : publishes w (step e w).
Proof.
  destruct e; unfold step.
  - destruct (connect_status w). by left.
  - destruct (close_frame w) as (_ & _ & _ & _ & _ & ? & _ & ? & _). by left.
  - unfold set_dp. destruct (_interface (dev w)); [destruct res |]; by left.
  - by right; right.
  - right; left. unfold disconnected. destruct (negb _); [| done].
    set (w0 := on_dev _ _). unfold cache. by destruct (connect_status w0) as [-> ->].
  - unfold run_callback. destruct (ready w) as [|[] q]; [by left |].
    destruct (connect_status (set_ready q w)). by left.
  - apply task_step_publishes.
Qed.

Lemma last_snapshot_snoc (l : list (option dict)) (p : option dict) :
  last_snapshot (l ++ [p]) = default (last_snapshot l) p.
Proof. unfold last_snapshot. by rewrite foldl_app. Qed.

(** X7.  In every state a session can reach the cache is the snapshot most
    recently sent to subscribers (and is empty when none was sent): the cache
    never changes without the new content being published, and a [None]
    payload leaves it as the last snapshot said. *)
Theorem cache_is_last_snapshot (cfg : ConfigEntry) (es : list event) :
  cache (run es (boot cfg)) = last_snapshot (signals (run es (boot cfg))).
Proof.
  apply (run_invariant (λ w, cache w = last_snapshot (signals w))); [| done].
  intros e w Hw.
  destruct (step_publishes e w) as [[-> ->] | [[-> ->] | ->]];
    rewrite ?last_snapshot_snoc; done.
Qed.

(** *** The calls an attempt makes *)










(** *** The entity *)

Lemma get_entity_config_return
    (CONF_ID : string) (entities : list entity_config) (dp_id : pyobj)
    (e : entity_config) :
  get_entity_config CONF_ID entities dp_id = Return e →
  e ∈ entities ∧ ∃ id, e !! CONF_ID = Some id ∧ py_eq id dp_id = true.
Proof.
  induction entities as [|e0 rest IH]; simpl; [done |].
  destruct (e0 !! CONF_ID) as [id|] eqn:Hid; [| done].
  destruct (py_eq id dp_id) eqn:Heq.
  - intros [= <-]. split; [left | eauto].
  - intros Hrest. destruct (IH Hrest) as [Hin Hex]. split; [by right | done].
Qed.

(** X9.  [LocalTuyaEntity.__init__] raises whatever [get_entity_config]
    raises.  Otherwise the entity's configuration is an entity of the
    configuration entry whose id equals [dp_id], the entity is not subscribed
    and has scheduled no state write, and whatever the device has cached the
    entity is not available and reads no datapoint. *)
Theorem entity_init_unavailable
    (CONF_ID : string) (data : ConfigEntry) (entities : list entity_config)
    (dp_id : pyobj) (w : World) :
  match LocalTuyaEntity.__init__ CONF_ID data entities dp_id with
  | Raise x => get_entity_config CONF_ID entities dp_id = Raise x
  | Return e =>
      LocalTuyaEntity._config e ∈ entities
      ∧ (∃ id, LocalTuyaEntity._config e !! CONF_ID = Some id
               ∧ py_eq id dp_id = true)
      ∧ LocalTuyaEntity._dp_id e = dp_id
      ∧ LocalTuyaEntity.subscribed e = false
      ∧ LocalTuyaEntity.available w e = false
      ∧ (∀ i, LocalTuyaEntity.dps w i e = None)
      ∧ LocalTuyaEntity.device_state_attributes w e = None
  end.
Proof.
  unfold LocalTuyaEntity.__init__.
  destruct (get_entity_config CONF_ID entities dp_id) as [c|x] eqn:Hget; [| done].
  destruct (get_entity_config_return _ _ _ _ Hget) as [Hin Hid].
  repeat split; try done.
Qed.

Lemma deliver_snapshot (now : datetime) (d : dict) (e : LocalTuyaEntity.t) (w : World) :
  LocalTuyaEntity.status_now w (deliver now (Some d) e) = cache w
  ∧ LocalTuyaEntity._last_seen (deliver now (Some d) e) = None
  ∧ LocalTuyaEntity._dp_id (deliver now (Some d) e) = LocalTuyaEntity._dp_id e.
Proof. done. Qed.

Lemma available_in_cache (w : World) (e : LocalTuyaEntity.t) :
  LocalTuyaEntity._status e = DeviceCache →
  LocalTuyaEntity.available w e
  = bool_decide (py_str (LocalTuyaEntity._dp_id e) ∈ dom (cache w)).
Proof. intros He. unfold LocalTuyaEntity.available, LocalTuyaEntity.status_now. by rewrite He. Qed.

Lemma status_deliveries (more : list (datetime * dict)) (e : LocalTuyaEntity.t) :
  LocalTuyaEntity._status e = DeviceCache →
  LocalTuyaEntity._last_seen e = None →
  let e' := foldl (λ e0 p, deliver p.1 (Some p.2) e0) e more in
  LocalTuyaEntity._status e' = DeviceCache
  ∧ LocalTuyaEntity._last_seen e' = None
  ∧ LocalTuyaEntity._dp_id e' = LocalTuyaEntity._dp_id e.
Proof.
  revert e. induction more as [|[now d] more IH]; intros e Hs Hl; [done |].
  cbn [foldl].
  destruct (IH (deliver now (Some d) e) eq_refl eq_refl) as (H1 & H2 & H3).
  cbv zeta in *. cbn [fst snd] in *. by rewrite H1, H2, H3.
Qed.

(** X10.  Once the entity has handled a status notification, and as long as
    every notification it handles after that is a status notification too
    (none is the unreachable marker), its [_status] is the device's
    dictionary itself: after any further events of the session, whether
    their notifications have reached the entity or not, the entity reads the
    device's current cache, so an entity that is available stays available,
    a datapoint it could read stays readable, and it has no state
    attributes. *)
Theorem entity_follows_cache
    (now : datetime) (d : dict) (more : list (datetime * dict))
    (e : LocalTuyaEntity.t) (w : World) (es : list event) (i : pyobj) :
  let e' := foldl (λ e0 p, deliver p.1 (Some p.2) e0)
                  (deliver now (Some d) e) more in
  LocalTuyaEntity.status_now (run es w) e' = cache (run es w)
  ∧ LocalTuyaEntity.device_state_attributes (run es w) e' = None
  ∧ (if LocalTuyaEntity.available w e'
     then LocalTuyaEntity.available (run es w) e' = true else True)
  ∧ match LocalTuyaEntity.dps w i e' with
    | Some _ => is_Some (LocalTuyaEntity.dps (run es w) i e')
    | None => True
    end.
Proof.
  intros e'. pose proof (run_status_dom es w) as Hdom.
  destruct (status_deliveries more (deliver now (Some d) e) eq_refl eq_refl)
    as (Hs & Hl & _). fold e' in Hs, Hl.
  assert (∀ w0, LocalTuyaEntity.status_now w0 e' = cache w0) as Hnow
    by (intros w0; unfold LocalTuyaEntity.status_now; by rewrite Hs).
  split; [done |].
  split; [unfold LocalTuyaEntity.device_state_attributes; by rewrite Hl |].
  split.
  - destruct (LocalTuyaEntity.available w e') eqn:Hav; [| done].
    rewrite available_in_cache in Hav |- * by done.
    apply bool_decide_eq_true in Hav. apply bool_decide_eq_true.
    unfold cache. set_solver.
  - destruct (LocalTuyaEntity.dps w i e') as [v|] eqn:Hv; [| done].
    unfold LocalTuyaEntity.dps in *. rewrite Hnow in Hv |- *.
    apply elem_of_dom. apply elem_of_dom_2 in Hv. unfold cache in *. set_solver.
Qed.

(** X11.  An unreachable notification ([None]) on a passive device leaves
    what the entity reads and its availability as they were and makes the
    state attributes carry the time and the old state; on any other device
    the entity reads an empty dictionary of its own: it is unavailable, reads
    no datapoint whatever the device still caches, and has no state
    attributes.  Either way one state write is scheduled. *)
Theorem entity_unreachable
    (now : datetime) (e : LocalTuyaEntity.t) (w : World) (i : pyobj) :
  let e' := deliver now None e in
  LocalTuyaEntity.scheduled e' = S (LocalTuyaEntity.scheduled e)
  ∧ if CONF_PASSIVE_DEVICE (LocalTuyaEntity._config_entry e)
    then LocalTuyaEntity.status_now w e' = LocalTuyaEntity.status_now w e
         ∧ LocalTuyaEntity.available w e' = LocalTuyaEntity.available w e
         ∧ LocalTuyaEntity.dps w i e' = LocalTuyaEntity.dps w i e
         ∧ LocalTuyaEntity.device_state_attributes w e'
           = Some (now, LocalTuyaEntity.status_now w e)
    else LocalTuyaEntity.status_now w e' = ∅
         ∧ LocalTuyaEntity.available w e' = false
         ∧ LocalTuyaEntity.dps w i e' = None
         ∧ LocalTuyaEntity.device_state_attributes w e' = None.
Proof.
  intros e'. subst e'. unfold deliver, LocalTuyaEntity._update_handler.
  destruct (CONF_PASSIVE_DEVICE (LocalTuyaEntity._config_entry e)); done.
Qed.

(** X12.  A device that is not passive disconnects and reconnects: after the
    unreachable notification the entity is unavailable; after the first
    status notification that follows, whatever happened to the session in
    between and whatever that snapshot contained, the entity is available
    again as soon as its datapoint was in the device's cache before the
    disconnection. *)
Theorem entity_available_again_by_old_key
    (now1 now2 : datetime) (d : dict) (e : LocalTuyaEntity.t) (w : World)
    (es : list event) :
  CONF_PASSIVE_DEVICE (LocalTuyaEntity._config_entry e) = false →
  py_str (LocalTuyaEntity._dp_id e) ∈ dom (cache w) →
  let e1 := deliver now1 None e in
  let e2 := deliver now2 (Some d) e1 in
  LocalTuyaEntity.available (run es (disconnected w)) e1 = false
  ∧ LocalTuyaEntity.available (run es (disconnected w)) e2 = true.
Proof.
  intros Hp Hkey e1 e2. split.
  - subst e1. unfold deliver, LocalTuyaEntity._update_handler. by rewrite Hp.
  - rewrite available_in_cache by done. apply bool_decide_eq_true.
    pose proof (run_status_dom es (disconnected w)) as Hdom.
    assert (cache (disconnected w) = cache w) as Hd.
    { unfold cache, disconnected. destruct (negb _); [| done].
      set (w0 := on_dev _ _). by destruct (connect_status w0) as [_ ->]. }
    unfold cache in *. rewrite Hd in Hdom.
    assert (LocalTuyaEntity._dp_id e2 = LocalTuyaEntity._dp_id e) as ->.
    { subst e2 e1. unfold deliver, LocalTuyaEntity._update_handler.
      by destruct (CONF_PASSIVE_DEVICE _). }
    set_solver.
Qed.

Lemma entity_available_again_by_old_key_witness :
  let w := run (Connect :: attempt_succeeds 0 0 7 {[ "2" := VStr "5" ]}) (boot plug) in
  let es := attempt_succeeds 1 0 8 {[ "1" := VStr "on" ]} in
  LocalTuyaEntity.available (run es (disconnected w))
    (deliver 20 (Some {[ "1" := VStr "on" ]}) (deliver 10 None plug_entity)) = true.
Proof.
  intros w es.
  assert (py_str (LocalTuyaEntity._dp_id plug_entity) ∈ dom (cache w)) as Hkey.
  { apply elem_of_dom. exists (VStr "5"). by vm_compute. }
  destruct (entity_available_again_by_old_key 10 20 {[ "1" := VStr "on" ]}
              plug_entity w es eq_refl Hkey) as [_ H].
  exact H.
Defined.

(** X13.  [async_added_to_hass] always connects the handler to the
    dispatcher first.  It raises [AttributeError] exactly when no state is
    stored and the device is passive, and [ValueError] exactly when the
    stored state has a non-empty last-seen string that does not parse.  When
    it raises, and when no state is stored, the entity's status and last-seen
    time are untouched.  When it returns with a stored state, the entity
    reads the stored old state (empty if there is none), not the device's
    cache, and is available exactly when its datapoint is a key of it. *)
Theorem async_added_to_hass_cases
    (fromisoformat : string → option datetime) (state : option State)
    (e : LocalTuyaEntity.t) (w : World) :
  let r := LocalTuyaEntity.async_added_to_hass fromisoformat state e in
  let passive := CONF_PASSIVE_DEVICE (LocalTuyaEntity._config_entry e) in
  LocalTuyaEntity.subscribed (fst r) = true
  ∧ (snd r = Raise AttributeError ↔ state = None ∧ passive = true)
  ∧ (snd r = Raise ValueError
     ↔ ∃ st s, state = Some st ∧ ATTR_LAST_SEEN st = Some s ∧ s ≠ ""
               ∧ fromisoformat s = None)
  ∧ (snd r ≠ Return () ∨ state = None →
     LocalTuyaEntity._status (fst r) = LocalTuyaEntity._status e
     ∧ LocalTuyaEntity._last_seen (fst r) = LocalTuyaEntity._last_seen e)
  ∧ match state with
    | Some st =>
        snd r = Return () →
        LocalTuyaEntity.status_now w (fst r) = default ∅ (ATTR_OLD_STATE st)
        ∧ LocalTuyaEntity.available w (fst r)
          = bool_decide (py_str (LocalTuyaEntity._dp_id e)
                         ∈ dom (default ∅ (ATTR_OLD_STATE st)))
    | None => True
    end.
Proof.
  intros r passive. subst r passive. unfold LocalTuyaEntity.async_added_to_hass.
  destruct state as [[seen old]|]; cbn.
  - destruct seen as [s|]; cbn.
    + case_bool_decide as Hs; cbn.
      * split; [done |]. split; [split; [done | by intros []] |].
        split; [split; [done | intros (? & ? & [= <-] & [= <-] & ? & _); done] |].
        split; [intros [? | ?]; done | done].
      * destruct (fromisoformat s) as [t|] eqn:Hparse; cbn.
        -- split; [done |]. split; [split; [done | by intros []] |].
           split; [split; [done | intros (? & ? & [= <-] & [= <-] & _ & ?); congruence] |].
           split; [intros [? | ?]; done | done].
        -- split; [done |]. split; [split; [done | by intros []] |].
           split; [split; [intros _; eauto 10 | done] |].
           split; [done | done].
    + split; [done |]. split; [split; [done | by intros []] |].
      split; [split; [done | intros (? & ? & [= <-] & ? & _); done] |].
      split; [intros [? | ?]; done | done].
  - destruct (CONF_PASSIVE_DEVICE (LocalTuyaEntity._config_entry e)); cbn.
    + split; [done |]. split; [done |].
      split; [split; [done | intros (? & ? & ? & _); done] | done].
    + split; [done |]. split; [split; [done | by intros []] |].
      split; [split; [done | intros (? & ? & ? & _); done] | done].
Qed.

Lemma py_eq_str (v : value) (s : string) :
  py_eq (Some v) (Some (VStr s)) = true ↔ v = VStr s.
Proof.
  destruct v as [t| |]; simpl; [| split; done..].
  rewrite bool_decide_eq_true. split; [by intros -> | by intros [= ->]].
Qed.

(** X14.  [has_config] is true exactly when the option is stored with an
    object other than [None] and other than the string "-1".  [dps_conf]
    reads the entity's status at the key that [str()] makes of the stored
    object; for an option that is missing or stored as [None] that key is
    "None". *)
Theorem has_config_and_dps_conf
    (attr : string) (e : LocalTuyaEntity.t) (w : World) :
  (LocalTuyaEntity.has_config attr e = true
   ↔ ∃ v, LocalTuyaEntity._config e !! attr = Some (Some v) ∧ v ≠ VStr "-1")
  ∧ LocalTuyaEntity.dps_conf w attr e
    = LocalTuyaEntity.status_now w e
      !! match LocalTuyaEntity._config e !! attr with
         | Some (Some v) => py_str (Some v)
         | _ => "None"
         end.
Proof.
  unfold LocalTuyaEntity.has_config, LocalTuyaEntity.dps_conf, LocalTuyaEntity.dps.
  destruct (LocalTuyaEntity._config e !! attr) as [[v|]|] eqn:Hc;
    cbn [default id]; (split; [| done]).
  - change (bool_decide (Some v ≠ None)) with true. cbn [andb].
    rewrite negb_true_iff, <- not_true_iff_false, py_eq_str.
    split; [eauto | by intros (? & [= <-] & ?)].
  - split; [done | by intros (? & ? & _)].
  - split; [done | by intros (? & ? & _)].
Qed.

(** *** Updates, one after the other *)

(** X15.  Two status updates in a row leave the cache that one update with
    the two mappings merged (the later one winning) would leave: a key gets
    the value of the latest update that has it and keeps its cached value if
    neither has it.  Both updates are published, the second one with the
    final cache. *)
Theorem status_updates_compose (a b : dict) (w : World) (k : string) :
  let w' := status_updated b (status_updated a w) in
  cache w' = cache (status_updated (b ∪ a) w)
  ∧ cache w' !! k = match b !! k with
                    | Some v => Some v
                    | None => match a !! k with
                              | Some v => Some v
                              | None => cache w !! k
                              end
                    end
  ∧ signals w' = signals w ++ [Some (a ∪ cache w); Some (cache w')].
Proof.
  intros w'. subst w'. unfold cache.
  destruct (status_updated_effect b (status_updated a w)) as [-> ->].
  destruct (status_updated_effect a w) as [-> ->].
  destruct (status_updated_effect (b ∪ a) w) as [-> _].
  split; [by rewrite (assoc_L (∪)) |]. split; [| by rewrite <- app_assoc].
  destruct (b !! k) as [v|] eqn:Hb; [by apply lookup_union_Some_l |].
  rewrite lookup_union_r by done.
  destruct (a !! k) as [v|] eqn:Ha; [by apply lookup_union_Some_l |].
  by rewrite lookup_union_r.
Qed.
